(** * MealFiltersComponent: filter-state reconciliation

    A shallow embedding of [src/components/MealFiltersComponent.tsx]: the
    pure handlers that build the next [MealFilters] object, the derived
    [hasActiveFilters] value, and the two [useEffect] hooks (draft reset and
    debounced search commit) as a deterministic event machine.

    Conventions.
    - A JavaScript string is its sequence of UTF-16 code units.
    - An optional property is an [option]: [None] is what a property read
      yields as [undefined], whether the key is missing or holds
      [undefined] (the component never distinguishes the two).
    - [a || b] on strings and [a && b] follow JavaScript truthiness: the
      empty string and [undefined] are falsy, every array is truthy.
    - Tag identifiers are integers (database keys); [NaN] is not modelled. *)

From Stdlib Require Import List String Ascii NArith ZArith Bool Arith Lia.
Import ListNotations.

(* ================================================================== *)
(** ** JavaScript primitives used by the component *)

Module Js.

Definition char := N.
Definition str := list char.

(** A source literal such as ['all'] (ASCII only). *)
Definition lit (s : string) : str :=
  map N_of_ascii (list_ascii_of_string s).

Definition empty : str := [].

Fixpoint str_eqb (a b : str) : bool :=
  match a, b with
  | [], [] => true
  | x :: a', y :: b' => N.eqb x y && str_eqb a' b'
  | _, _ => false
  end.

(** Equality of strings is decidable. *)
Definition str_eq_dec (a b : str) : {a = b} + {a <> b} :=
  list_eq_dec N.eq_dec a b.

Definition opt_str_eq_dec (a b : option str) : {a = b} + {a <> b}.
Proof. decide equality; apply str_eq_dec. Defined.

(** [s.length > 0], i.e. the truthiness of a string. *)
Definition truthy_str (s : str) : bool :=
  match s with [] => false | _ :: _ => true end.

(** [o || d] for an optional string [o] and a string [d]. *)
Definition or_str (o : option str) (d : str) : str :=
  match o with
  | Some s => if truthy_str s then s else d
  | None => d
  end.

(** [s || undefined]. *)
Definition or_undefined (s : str) : option str :=
  if truthy_str s then Some s else None.

(** [a === b] on optional strings (also what [Object.is] decides on them). *)
Definition opt_str_eqb (a b : option str) : bool :=
  match a, b with
  | None, None => true
  | Some x, Some y => str_eqb x y
  | _, _ => false
  end.

(** ECMAScript WhiteSpace and LineTerminator code points, the characters
    [String.prototype.trim] strips.  All of them are single code units. *)
Definition is_whitespace (c : char) : bool :=
  ((9 <=? c) && (c <=? 13)          (* TAB LF VT FF CR *)
   || (c =? 32)                     (* SPACE *)
   || (c =? 160)                    (* NO-BREAK SPACE *)
   || (c =? 5760)                   (* U+1680 *)
   || ((8192 <=? c) && (c <=? 8202))  (* U+2000 .. U+200A *)
   || (c =? 8232) || (c =? 8233)    (* LINE / PARAGRAPH SEPARATOR *)
   || (c =? 8239)                   (* U+202F *)
   || (c =? 8287)                   (* U+205F *)
   || (c =? 12288)                  (* U+3000 *)
   || (c =? 65279))%N.              (* U+FEFF *)

Fixpoint trimStart (s : str) : str :=
  match s with
  | [] => []
  | c :: s' => if is_whitespace c then trimStart s' else s
  end.

Definition trimEnd (s : str) : str := rev (trimStart (rev s)).

Definition trim (s : str) : str := trimEnd (trimStart s).

(** A string that starts with no whitespace. *)
Definition clean_start (s : str) : Prop :=
  match s with [] => True | c :: _ => is_whitespace c = false end.

(** The values [hasActiveFilters] can evaluate to. *)
Inductive value :=
| VUndefined
| VString (s : str)
| VBool (b : bool).

Definition truthy (v : value) : bool :=
  match v with
  | VUndefined => false
  | VString s => truthy_str s
  | VBool b => b
  end.

(** [a || b]. *)
Definition or_val (a b : value) : value := if truthy a then a else b.

(** An optional string property read as a value. *)
Definition of_opt_str (o : option str) : value :=
  match o with Some s => VString s | None => VUndefined end.

End Js.

(* ================================================================== *)
(** ** Data model *)

(** [MealFilters]: every field optional.  At run time [category],
    [sort_by] and [sort_order] are strings: the handlers receive a
    [string] and store it through an unchecked type assertion. *)
Record MealFilters := mkFilters {
  search : option Js.str;
  category : option Js.str;
  sort_by : option Js.str;
  sort_order : option Js.str;
  dietary_tags : option (list Z)
}.

(** The object literal [{}]. *)
Definition emptyFilters : MealFilters :=
  mkFilters None None None None None.

(** Modelled from the spec: the [MealCategory] type of [../types], which is
    not part of the sources.  The spec calls it a fixed enumeration of
    breakfast/lunch/dinner/snack labels; these are the values the category
    [Select] offers besides the ['all'] sentinel. *)
Definition MealCategory_labels : list Js.str :=
  [ Js.lit "Best for Breakfast"; Js.lit "Best for Lunch";
    Js.lit "Best for Dinner"; Js.lit "Best for Snacks" ].

Definition is_MealCategory (c : Js.str) : bool :=
  existsb (Js.str_eqb c) MealCategory_labels.

(** The [category] field, when present, holds a [MealCategory]. *)
Definition category_typed (F : MealFilters) : Prop :=
  match category F with
  | Some c => is_MealCategory c = true
  | None => True
  end.

(** Object spread with one overridden property. *)
Definition with_search (F : MealFilters) (v : option Js.str) : MealFilters :=
  mkFilters v (category F) (sort_by F) (sort_order F) (dietary_tags F).

Definition with_category (F : MealFilters) (v : option Js.str) : MealFilters :=
  mkFilters (search F) v (sort_by F) (sort_order F) (dietary_tags F).

Definition with_sort (F : MealFilters) (k d : option Js.str) : MealFilters :=
  mkFilters (search F) (category F) k d (dietary_tags F).

Definition with_dietary_tags (F : MealFilters) (v : option (list Z))
  : MealFilters :=
  mkFilters (search F) (category F) (sort_by F) (sort_order F) v.

(** The spec's invariant on a committed state: no empty string in
    [search], no empty array in [dietary_tags]. *)
Definition is_minimal (F : MealFilters) : bool :=
  match search F with Some s => Js.truthy_str s | None => true end
  && match dietary_tags F with Some [] => false | _ => true end.

(* ================================================================== *)
(** ** Handlers *)

(** [handleCategoryChange]. *)
Definition handleCategoryChange (filters : MealFilters) (c : Js.str)
  : MealFilters :=
  with_category filters
    (if Js.str_eqb c (Js.lit "all") then None else Some c).

(** [handleSortChange]. *)
Definition handleSortChange (filters : MealFilters) (sortBy sortOrder : Js.str)
  : MealFilters :=
  with_sort filters (Some sortBy) (Some sortOrder).

(** [onValueChange] of the sort [Select]. *)
Definition onSortKeyPicked (filters : MealFilters) (value : Js.str)
  : MealFilters :=
  handleSortChange filters value
    (Js.or_str (sort_order filters) (Js.lit "desc")).

(** [onClick] of the direction button. *)
Definition onSortOrderToggled (filters : MealFilters) : MealFilters :=
  handleSortChange filters
    (Js.or_str (sort_by filters) (Js.lit "created_at"))
    (if Js.opt_str_eqb (sort_order filters) (Some (Js.lit "asc"))
     then Js.lit "desc" else Js.lit "asc").

(** [filters.dietary_tags || []]. *)
Definition currentTags (filters : MealFilters) : list Z :=
  match dietary_tags filters with Some l => l | None => [] end.

(** [currentTags.includes(tagId)]. *)
Definition includes (l : list Z) (t : Z) : bool :=
  existsb (Z.eqb t) l.

(** The [newTags] computed by [handleDietaryTagToggle]. *)
Definition newTags (cur : list Z) (tagId : Z) : list Z :=
  if includes cur tagId
  then filter (fun id => negb (Z.eqb id tagId)) cur
  else cur ++ [tagId].

(** [handleDietaryTagToggle]. *)
Definition handleDietaryTagToggle (filters : MealFilters) (tagId : Z)
  : MealFilters :=
  let nt := newTags (currentTags filters) tagId in
  with_dietary_tags filters
    (if (0 <? List.length nt)%nat then Some nt else None).

(** [clearAllFilters]. *)
Definition clearAllFilters (filters : MealFilters) : MealFilters :=
  emptyFilters.

(** [hasActiveFilters]: a JavaScript value, used for its truthiness. *)
Definition hasActiveFilters (filters : MealFilters) : Js.value :=
  Js.or_val (Js.or_val (Js.of_opt_str (search filters))
               (Js.of_opt_str (category filters)))
        (match dietary_tags filters with
         | None => Js.VUndefined
         | Some l => Js.VBool (0 <? List.length l)%nat
         end).

(* ================================================================== *)
(** ** The component as an event machine *)

Definition DEBOUNCE : nat := 300.

(** A pending [setTimeout]: the time left and the values its callback
    closed over. *)
Record Timer := mkTimer {
  remaining : nat;
  cap_localSearch : Js.str;
  cap_filters : MealFilters
}.

Record State := mkState {
  filters : MealFilters;      (* the [filters] prop of the last render *)
  localSearch : Js.str;       (* the [useState] slot *)
  timer : option Timer        (* the live debounce timer, if any *)
}.

(** The [setTimeout] callback of the debounce effect; the result is the
    list of [onFiltersChange] calls it makes. *)
Definition timer_callback (t : Timer) : list MealFilters :=
  let trimmedSearch := Js.trim (cap_localSearch t) in
  if negb (Js.str_eqb trimmedSearch
             (Js.or_str (search (cap_filters t)) Js.empty))
  then [with_search (cap_filters t) (Js.or_undefined trimmedSearch)]
  else [].

(** Running the debounce effect: the cleanup of the previous run has
    cleared the old timer, a new one is set. *)
Definition start_timer (F : MealFilters) (draft : Js.str) : option Timer :=
  Some (mkTimer DEBOUNCE draft F).

Inductive Event :=
| Edit (v : Js.str)             (* the input's [onChange] *)
| Elapse (d : nat)              (* [d] units of time pass *)
| Props (F : MealFilters)       (* the parent renders with a new [filters] *)
| CategoryPicked (c : Js.str)
| SortKeyPicked (k : Js.str)
| SortOrderToggled
| TagToggled (t : Z)
| ClearClicked.

(** First render and first run of both effects. *)
Definition mount (F : MealFilters) : State :=
  let draft := Js.or_str (search F) Js.empty in
  mkState F draft (start_timer F draft).

(** Cleanup on unmount. *)
Definition unmount (st : State) : State :=
  mkState (filters st) (localSearch st) None.

(** One event: the next state and the [onFiltersChange] calls made.
    - [Edit v]: [setLocalSearch v]; the debounce effect re-runs only when
      its dependency [localSearch] changed.
    - [Props F]: the reset effect re-runs when [filters.search] changed,
      the debounce effect re-runs because [filters] is a new object; the
      timer left standing closes over the draft after the reset.
    - The five handlers call [onFiltersChange] at once and leave the
      component's own state as it is: [filters] belongs to the parent. *)
Definition step (st : State) (e : Event) : State * list MealFilters :=
  match e with
  | Edit v =>
      if Js.str_eqb v (localSearch st) then (st, [])
      else (mkState (filters st) v (start_timer (filters st) v), [])
  | Elapse d =>
      match timer st with
      | None => (st, [])
      | Some t =>
          if (remaining t <=? d)%nat
          then (mkState (filters st) (localSearch st) None, timer_callback t)
          else (mkState (filters st) (localSearch st)
                  (Some (mkTimer (remaining t - d)
                           (cap_localSearch t) (cap_filters t))), [])
      end
  | Props F =>
      let draft :=
        if Js.opt_str_eqb (search F) (search (filters st))
        then localSearch st
        else Js.or_str (search F) Js.empty in
      (mkState F draft (start_timer F draft), [])
  | CategoryPicked c => (st, [handleCategoryChange (filters st) c])
  | SortKeyPicked k => (st, [onSortKeyPicked (filters st) k])
  | SortOrderToggled => (st, [onSortOrderToggled (filters st)])
  | TagToggled t => (st, [handleDietaryTagToggle (filters st) t])
  | ClearClicked => (st, [clearAllFilters (filters st)])
  end.

(** A sequence of events, with every emission in order. *)
Fixpoint run (st : State) (es : list Event) : State * list MealFilters :=
  match es with
  | [] => (st, [])
  | e :: es' =>
      let (st1, out1) := step st e in
      let (st2, out2) := run st1 es' in
      (st2, out1 ++ out2)
  end.

Definition emissions (st : State) (es : list Event) : list MealFilters :=
  snd (run st es).

(** Edits after a first one, each preceded by the time since the previous
    edit. *)
Fixpoint later_edits (l : list (nat * Js.str)) : list Event :=
  match l with
  | [] => []
  | (gap, v) :: l' => Elapse gap :: Edit v :: later_edits l'
  end.

(** The last value of a burst of edits starting with [v]. *)
Definition final_value (v : Js.str) (l : list (nat * Js.str)) : Js.str :=
  last (map snd l) v.

(** Every edit of the burst changes the draft it finds. *)
Fixpoint each_changes (prev : Js.str) (l : list (nat * Js.str)) : Prop :=
  match l with
  | [] => True
  | (_, v) :: l' => Js.str_eqb v prev = false /\ each_changes v l'
  end.

(** The debounce commit the pair (committed state, draft) leads to. *)
Definition commit (F : MealFilters) (draft : Js.str) : list MealFilters :=
  timer_callback (mkTimer DEBOUNCE draft F).

(** An event that carries a committed state from the parent carries a
    minimal one. *)
Definition props_minimal (e : Event) : Prop :=
  match e with
  | Props F => is_minimal F = true
  | _ => True
  end.

(** What a minimal committed state guarantees inside the machine: the
    current props and the props a pending timer closed over are minimal. *)
Definition state_minimal (st : State) : Prop :=
  is_minimal (filters st) = true /\
  match timer st with
  | Some t => is_minimal (cap_filters t) = true
  | None => True
  end.

(** A pending timer closes over the current draft and props. *)
Definition timer_current (st : State) : Prop :=
  match timer st with
  | Some t =>
      cap_localSearch t = localSearch st /\ cap_filters t = filters st /\
      (0 < remaining t <= DEBOUNCE)%nat
  | None => True
  end.

(* ================================================================== *)
(** ** What the render shows *)

(** [{hasActiveFilters && (<Button ...>Clear</Button>)}] and the summary
    block under the same guard. *)
Definition showsClear (filters : MealFilters) : bool :=
  Js.truthy (hasActiveFilters filters).

(** [value={filters.category || 'all'}] of the category [Select]. *)
Definition categorySelectValue (filters : MealFilters) : Js.str :=
  Js.or_str (category filters) (Js.lit "all").

(** [value={filters.sort_by || 'created_at'}] of the sort [Select]. *)
Definition sortSelectValue (filters : MealFilters) : Js.str :=
  Js.or_str (sort_by filters) (Js.lit "created_at").

(** [filters.sort_order === 'asc']: the direction button shows [SortAsc]
    when true, [SortDesc] otherwise. *)
Definition showsSortAsc (filters : MealFilters) : bool :=
  Js.opt_str_eqb (sort_order filters) (Some (Js.lit "asc")).

(** [filters.dietary_tags?.includes(tag.tag_id)]: the tag button is drawn
    selected when this is truthy; an absent array gives [undefined]. *)
Definition tagSelected (filters : MealFilters) (tag_id : Z) : bool :=
  match dietary_tags filters with
  | Some l => includes l tag_id
  | None => false
  end.

(** The three chips of the summary: [{filters.search && ...}],
    [{filters.category && ...}] and
    [{filters.dietary_tags && filters.dietary_tags.length > 0 && ...}]. *)
Definition showsSearchChip (filters : MealFilters) : bool :=
  Js.truthy (Js.of_opt_str (search filters)).

Definition showsCategoryChip (filters : MealFilters) : bool :=
  Js.truthy (Js.of_opt_str (category filters)).

Definition showsTagsChip (filters : MealFilters) : bool :=
  match dietary_tags filters with
  | Some l => (0 <? List.length l)%nat
  | None => false
  end.

(** A trace in which the parent never renders with new props. *)
Definition is_props (e : Event) : bool :=
  match e with Props _ => true | _ => false end.

(** The input's [onChange]. *)
Definition is_edit (e : Event) : bool :=
  match e with Edit _ => true | _ => false end.

(** The four actions that call [onFiltersChange] from an event handler. *)
Definition is_handler (e : Event) : bool :=
  match e with
  | CategoryPicked _ | SortKeyPicked _ | SortOrderToggled
  | TagToggled _ | ClearClicked => true
  | _ => false
  end.

(** An element of the [dietaryTags] prop, with the two fields the
    component reads. *)
Record DietaryTag := mkTag {
  tag_id : Z;
  tag_name : Js.str
}.

(** The tag buttons drawn: none when [dietaryTags] is empty, otherwise
    one per element, with its label and whether it is drawn selected. *)
Definition tagButtons (dietaryTags : list DietaryTag) (filters : MealFilters)
  : list (Js.str * bool) :=
  if (0 <? List.length dietaryTags)%nat
  then map (fun tag => (tag_name tag, tagSelected filters (tag_id tag)))
         dietaryTags
  else [].

(** The value of the last [Edit] of a trace, [dflt] if there is none. *)
Fixpoint last_edit (es : list Event) (dflt : Js.str) : Js.str :=
  match es with
  | [] => dflt
  | Edit v :: es' => last_edit es' v
  | _ :: es' => last_edit es' dflt
  end.

(** [out] is the empty state, or [F] with the fields of one control
    replaced: the search, the category, the sort pair or the tags. *)
Definition one_control (F out : MealFilters) : Prop :=
  out = with_search F (search out)
  \/ out = with_category F (category out)
  \/ out = with_sort F (sort_by out) (sort_order out)
  \/ out = with_dietary_tags F (dietary_tags out)
  \/ out = emptyFilters.

(* ================================================================== *)
(** ** The layout shell *)

(** The two [useState] slots of [Layout]. *)
Record LayoutState := mkLayout {
  sidebarOpen : bool;
  sidebarCollapsed : bool
}.

(** [useState(false)] twice. *)
Definition layout_init : LayoutState := mkLayout false false.

(** The callbacks handed to [Sidebar]: [onToggle] is
    [() => setSidebarOpen(!sidebarOpen)], [onCollapsedChange] is
    [setSidebarCollapsed] called with a boolean. *)
Inductive LayoutEvent :=
| OnToggle
| OnCollapsedChange (collapsed : bool).

(** One callback, called from the render that shows [s]. *)
Definition layout_step (s : LayoutState) (e : LayoutEvent) : LayoutState :=
  match e with
  | OnToggle => mkLayout (negb (sidebarOpen s)) (sidebarCollapsed s)
  | OnCollapsedChange b => mkLayout (sidebarOpen s) b
  end.

(** The number of [onToggle] calls in a trace. *)
Fixpoint toggles (es : list LayoutEvent) : nat :=
  match es with
  | [] => 0
  | OnToggle :: es' => S (toggles es')
  | OnCollapsedChange _ :: es' => toggles es'
  end.

(** The argument of the last [onCollapsedChange] call, [dflt] if none. *)
Fixpoint last_collapsed (es : list LayoutEvent) (dflt : bool) : bool :=
  match es with
  | [] => dflt
  | OnToggle :: es' => last_collapsed es' dflt
  | OnCollapsedChange b :: es' => last_collapsed es' b
  end.

(* ================================================================== *)
(** ** Facts about the JavaScript primitives *)

Module JsFacts.
Import Js.

Lemma str_eqb_eq (a b : str) : str_eqb a b = true <-> a = b.
Proof.
  revert b; induction a as [|x a IH]; intros [|y b]; simpl;
    try (split; [discriminate | discriminate]); try tauto.
  rewrite andb_true_iff, N.eqb_eq, IH.
  split; [intros [-> ->]; reflexivity | intros H; inversion H; auto].
Qed.

Lemma str_eqb_refl (a : str) : str_eqb a a = true.
Proof. apply str_eqb_eq; reflexivity. Qed.

Lemma str_eqb_neq (a b : str) : str_eqb a b = false <-> a <> b.
Proof.
  rewrite <- str_eqb_eq. destruct (str_eqb a b); split; congruence.
Qed.

Lemma opt_str_eqb_eq (a b : option str) : opt_str_eqb a b = true <-> a = b.
Proof.
  destruct a as [x|], b as [y|]; simpl; try (split; congruence).
  rewrite str_eqb_eq; split; congruence.
Qed.

Lemma opt_str_eqb_neq (a b : option str) : opt_str_eqb a b = false <-> a <> b.
Proof.
  rewrite <- opt_str_eqb_eq. destruct (opt_str_eqb a b); split; congruence.
Qed.

Lemma truthy_str_nonempty (s : str) : truthy_str s = true <-> s <> [].
Proof. destruct s; simpl; split; congruence. Qed.

Lemma or_undefined_spec (s : str) :
  or_undefined s = if str_eq_dec s [] then None else Some s.
Proof.
  unfold or_undefined. destruct (str_eq_dec s []) as [->|H]; [reflexivity|].
  destruct s; [congruence | reflexivity].
Qed.

(** [o || ''] is [o] itself when present, the empty string otherwise. *)
Lemma or_str_empty (o : option str) :
  or_str o empty = match o with Some s => s | None => [] end.
Proof. destruct o as [[|c s]|]; reflexivity. Qed.

Lemma trimStart_clean (s : str) : clean_start (trimStart s).
Proof.
  induction s as [|c s IH]; simpl; [exact I|].
  destruct (is_whitespace c) eqn:E; [exact IH | exact E].
Qed.

Lemma trimStart_fix (s : str) : clean_start s -> trimStart s = s.
Proof. destruct s as [|c s]; simpl; [reflexivity | intros ->; reflexivity]. Qed.

Lemma trimEnd_snoc (s : str) (c : char) :
  trimEnd (s ++ [c]) = if is_whitespace c then trimEnd s else s ++ [c].
Proof.
  unfold trimEnd. rewrite rev_app_distr. simpl.
  destruct (is_whitespace c); [reflexivity|].
  simpl. rewrite rev_involutive. reflexivity.
Qed.

Lemma trimEnd_clean (s : str) : clean_start s -> clean_start (trimEnd s).
Proof.
  induction s as [|c s IH] using rev_ind; intros H; [exact I|].
  rewrite trimEnd_snoc. destruct (is_whitespace c); [|exact H].
  apply IH. destruct s; [exact I | exact H].
Qed.

Lemma trimEnd_idem (s : str) : trimEnd (trimEnd s) = trimEnd s.
Proof.
  unfold trimEnd. rewrite rev_involutive.
  rewrite trimStart_fix by apply trimStart_clean. reflexivity.
Qed.

(** [trim] is idempotent: a committed search value that came out of the
    debounce is left alone by the next one. *)
Lemma trim_idem (s : str) : trim (trim s) = trim s.
Proof.
  unfold trim at 1.
  rewrite trimStart_fix.
  - unfold trim. apply trimEnd_idem.
  - unfold trim. apply trimEnd_clean, trimStart_clean.
Qed.

Example whitespace_units :
  map is_whitespace [9; 10; 13; 32; 160; 8232; 65279; 97; 8203]%N
  = [true; true; true; true; true; true; true; false; false].
Proof. reflexivity. Qed.

Example trim_pancakes : trim (lit "  Pancakes ") = lit "Pancakes".
Proof. reflexivity. Qed.

Example trim_blank : trim (lit "   ") = empty.
Proof. reflexivity. Qed.

Example trim_inner : trim (lit " a b ") = lit "a b".
Proof. reflexivity. Qed.

End JsFacts.

(* ================================================================== *)
(** ** The handlers *)

Section Handlers.
Import Js JsFacts.

Lemma includes_In (l : list Z) (t : Z) : includes l t = true <-> In t l.
Proof.
  unfold includes. rewrite existsb_exists. split.
  - intros (x & Hx & E). apply Z.eqb_eq in E. subst. exact Hx.
  - intros H. exists t. split; [exact H | apply Z.eqb_refl].
Qed.

Lemma filter_neq_remove (l : list Z) (t : Z) :
  filter (fun id => negb (Z.eqb id t)) l = remove Z.eq_dec t l.
Proof.
  induction l as [|x l IH]; simpl; [reflexivity|].
  destruct (Z.eq_dec t x) as [->|N].
  - rewrite Z.eqb_refl. simpl. exact IH.
  - assert (E : Z.eqb x t = false) by (apply Z.eqb_neq; congruence).
    rewrite E. simpl. rewrite IH. reflexivity.
Qed.

(** [newTags] by cases on membership. *)
Lemma newTags_spec (cur : list Z) (t : Z) :
  newTags cur t =
  if in_dec Z.eq_dec t cur then remove Z.eq_dec t cur else cur ++ [t].
Proof.
  unfold newTags. destruct (in_dec Z.eq_dec t cur) as [H|H].
  - apply includes_In in H. rewrite H. apply filter_neq_remove.
  - destruct (includes cur t) eqn:E; [|reflexivity].
    apply includes_In in E. contradiction.
Qed.

Lemma remove_snoc_same (l : list Z) (t : Z) :
  remove Z.eq_dec t (l ++ [t]) = remove Z.eq_dec t l.
Proof.
  rewrite remove_app. simpl.
  destruct (Z.eq_dec t t); [apply app_nil_r | congruence].
Qed.

Lemma remove_idem (l : list Z) (t : Z) :
  remove Z.eq_dec t (remove Z.eq_dec t l) = remove Z.eq_dec t l.
Proof. apply notin_remove, remove_In. Qed.

(** The tags other than [t] keep their places relative to one another. *)
Lemma newTags_others (cur : list Z) (t : Z) :
  remove Z.eq_dec t (newTags cur t) = remove Z.eq_dec t cur.
Proof.
  rewrite newTags_spec. destruct (in_dec Z.eq_dec t cur).
  - apply remove_idem.
  - apply remove_snoc_same.
Qed.

(** Reading the tag field back after a toggle gives [newTags]. *)
Lemma currentTags_toggle (F : MealFilters) (t : Z) :
  currentTags (handleDietaryTagToggle F t) = newTags (currentTags F) t.
Proof.
  unfold handleDietaryTagToggle, currentTags at 1. simpl.
  destruct (newTags (currentTags F) t); reflexivity.
Qed.

Lemma toggle_fresh_sequence (ts : list Z) : forall F,
  NoDup ts ->
  (forall x, In x ts -> ~ In x (currentTags F)) ->
  currentTags (fold_left handleDietaryTagToggle ts F) = currentTags F ++ ts.
Proof.
  induction ts as [|t ts IH]; intros F Hnd Hfresh; simpl.
  - symmetry. apply app_nil_r.
  - inversion Hnd as [|? ? Hnotin Hnd']; subst.
    assert (Ht : ~ In t (currentTags F)) by (apply Hfresh; left; reflexivity).
    assert (E : currentTags (handleDietaryTagToggle F t) = currentTags F ++ [t]).
    { rewrite currentTags_toggle, newTags_spec.
      destruct (in_dec Z.eq_dec t (currentTags F)); [contradiction | reflexivity]. }
    rewrite IH; [rewrite E, <- app_assoc; reflexivity | exact Hnd' |].
    intros x Hx. rewrite E. intros Hin. apply in_app_or in Hin.
    destruct Hin as [Hin | [<- | []]].
    + exact (Hfresh x (or_intror Hx) Hin).
    + exact (Hnotin Hx).
Qed.

(** C4 - dietary-tag toggle.  Toggling [t] on a committed state [F] emits
    one state, [F] with only the tag field replaced: the committed tags
    (none when the field is absent) with every [t] removed when [t] is
    among them, with [t] appended at the end otherwise; an empty result
    is stored as an absent field.  The other tags keep their relative
    order, and toggling in a sequence [ts] of distinct tags that are not
    selected yet appends them in that order. *)
Theorem C4_tag_toggle (st : State) (t : Z) (ts : list Z)
  (Hdistinct : NoDup ts)
  (Hfresh : forall x, In x ts -> ~ In x (currentTags (filters st))) :
  let F := filters st in
  let cur := currentTags F in
  let nt := if in_dec Z.eq_dec t cur
            then remove Z.eq_dec t cur else cur ++ [t] in
  let F' := handleDietaryTagToggle F t in
  step st (TagToggled t) = (st, [F'])
  /\ dietary_tags F' = match nt with [] => None | _ :: _ => Some nt end
  /\ (search F', category F', sort_by F', sort_order F')
     = (search F, category F, sort_by F, sort_order F)
  /\ remove Z.eq_dec t (currentTags F') = remove Z.eq_dec t cur
  /\ currentTags (fold_left handleDietaryTagToggle ts F) = cur ++ ts.
Proof.
  intros F cur nt F'. split; [reflexivity|].
  assert (E : newTags cur t = nt) by apply newTags_spec.
  split.
  { unfold F', handleDietaryTagToggle. simpl. fold F. fold cur. rewrite E.
    destruct nt; reflexivity. }
  split; [reflexivity|]. split.
  - unfold F'. rewrite currentTags_toggle. apply newTags_others.
  - apply toggle_fresh_sequence; assumption.
Qed.

Lemma C4_tag_toggle_witness :
  let F := with_dietary_tags emptyFilters (Some [1; 2]%Z) in
  let st := mount F in
  step st (TagToggled 2) = (st, [with_dietary_tags emptyFilters (Some [1]%Z)])
  /\ currentTags (fold_left handleDietaryTagToggle [3; 4]%Z F)
     = [1; 2; 3; 4]%Z.
Proof.
  intros F st.
  assert (Hnd : NoDup [3; 4]%Z).
  { repeat constructor; simpl; intuition discriminate. }
  assert (Hfresh : forall x, In x [3; 4]%Z -> ~ In x (currentTags (filters st))).
  { simpl. intros x [<- | [<- | []]]; intuition discriminate. }
  destruct (C4_tag_toggle st 2 _ Hnd Hfresh) as (H1 & _ & _ & _ & H5).
  split; [exact H1 | exact H5].
Defined.

(** The spec's scenario: [{dietary_tags: [1,2]}], toggle 2, then toggle 1. *)
Example toggle_scenario :
  let F := with_dietary_tags emptyFilters (Some [1; 2]%Z) in
  handleDietaryTagToggle F 2 = with_dietary_tags emptyFilters (Some [1]%Z)
  /\ handleDietaryTagToggle (handleDietaryTagToggle F 2) 1 = emptyFilters.
Proof. split; reflexivity. Qed.

End Handlers.

Section MoreHandlers.
Import Js JsFacts.

Lemma truthy_or_val (a b : value) :
  truthy (or_val a b) = truthy a || truthy b.
Proof. unfold or_val. destruct (truthy a) eqn:E; simpl; [exact E | reflexivity]. Qed.

Lemma truthy_of_opt_str (o : option str) :
  truthy (of_opt_str o) = true <-> exists s, o = Some s /\ s <> empty.
Proof.
  destruct o as [s|]; simpl.
  - rewrite truthy_str_nonempty. split.
    + intros H. exists s. split; [reflexivity | exact H].
    + intros (s' & E & H). inversion E; subst. exact H.
  - split; [discriminate | intros (s' & E & _); discriminate E].
Qed.

(** Truthiness of [hasActiveFilters], field by field. *)
Lemma hasActiveFilters_truthy (F : MealFilters) :
  truthy (hasActiveFilters F) = true <->
  (exists s, search F = Some s /\ s <> empty)
  \/ (exists c, category F = Some c /\ c <> empty)
  \/ (exists l, dietary_tags F = Some l /\ l <> []).
Proof.
  unfold hasActiveFilters. rewrite !truthy_or_val, !orb_true_iff.
  rewrite !truthy_of_opt_str, or_assoc.
  apply or_iff_compat_l, or_iff_compat_l.
  destruct (dietary_tags F) as [[|z l]|]; simpl.
  - split; [discriminate | intros (l & E & N); inversion E; congruence].
  - split; [intros _; eexists; split; [reflexivity | discriminate] | reflexivity].
  - split; [discriminate | intros (l & E & _); discriminate E].
Qed.

(** A [MealCategory] label is a non-empty string. *)
Lemma MealCategory_nonempty (c : str) : is_MealCategory c = true -> c <> empty.
Proof. intros H ->. discriminate H. Qed.

(** C5 - active-filter detection.  For a FilterState [F] (its category,
    when present, one of the enumeration's labels), [hasActiveFilters] is
    truthy exactly when the search is present and non-empty, or the
    category is present, or the tag array is present and non-empty; it is
    falsy for the empty FilterState. *)
Theorem C5_active_filters (F : MealFilters) (Htyped : category_typed F) :
  (truthy (hasActiveFilters F) = true <->
     (exists s, search F = Some s /\ s <> empty)
     \/ category F <> None
     \/ (exists l, dietary_tags F = Some l /\ l <> []))
  /\ truthy (hasActiveFilters emptyFilters) = false.
Proof.
  split; [|reflexivity].
  rewrite hasActiveFilters_truthy. unfold category_typed in Htyped.
  split; intros [H | [H | H]]; auto.
  - right; left. destruct H as (c & E & _). congruence.
  - right; left. destruct (category F) as [c|]; [|congruence].
    exists c. split; [reflexivity | apply MealCategory_nonempty, Htyped].
Qed.

Lemma C5_active_filters_witness :
  let F := with_category emptyFilters (Some (lit "Best for Lunch")) in
  truthy (hasActiveFilters F) = true.
Proof.
  intros F.
  assert (Htyped : category_typed F) by reflexivity.
  apply (proj1 (C5_active_filters F Htyped)).
  right; left. discriminate.
Defined.

(** C7 - category change.  Picking [c] emits one state: the committed one
    with the category set to [c], or removed when [c] is the ['all']
    sentinel; no other field changes. *)
Theorem C7_category_change (st : State) (c : str) :
  let F := filters st in
  let F' := handleCategoryChange F c in
  step st (CategoryPicked c) = (st, [F'])
  /\ category F' = (if str_eq_dec c (lit "all") then None else Some c)
  /\ (search F', sort_by F', sort_order F', dietary_tags F')
     = (search F, sort_by F, sort_order F, dietary_tags F).
Proof.
  intros F F'. split; [reflexivity|]. split; [|reflexivity].
  unfold F', handleCategoryChange. simpl.
  destruct (str_eq_dec c (lit "all")) as [->|N]; [reflexivity|].
  apply str_eqb_neq in N. rewrite N. reflexivity.
Qed.

(** The spec's scenario: [{category: "Best for Lunch"}], pick ['all']. *)
Example category_all_scenario :
  handleCategoryChange
    (with_category emptyFilters (Some (lit "Best for Lunch"))) (lit "all")
  = emptyFilters.
Proof. reflexivity. Qed.

(** C8 - sort change.  [handleSortChange] replaces the sort key and the
    sort direction by the pair it is given and nothing else.  Picking a
    key [k] passes the current direction, ['desc'] when there is none;
    the direction button passes the current key, ['created_at'] when
    there is none, with ['desc'] if the current direction is ['asc'] and
    ['asc'] otherwise. *)
Theorem C8_sort_change (st : State) (k d : str) :
  let F := filters st in
  let held (o : option str) (dflt : str) :=
    match o with
    | Some s => if str_eq_dec s empty then dflt else s
    | None => dflt
    end in
  let F' := handleSortChange F k d in
  (sort_by F' = Some k /\ sort_order F' = Some d
   /\ (search F', category F', dietary_tags F')
      = (search F, category F, dietary_tags F))
  /\ step st (SortKeyPicked k)
     = (st, [handleSortChange F k (held (sort_order F) (lit "desc"))])
  /\ step st SortOrderToggled
     = (st, [handleSortChange F (held (sort_by F) (lit "created_at"))
               (if opt_str_eq_dec (sort_order F) (Some (lit "asc"))
                then lit "desc" else lit "asc")]).
Proof.
  intros F held F'. split; [repeat split|]. split.
  - simpl. unfold onSortKeyPicked. fold F.
    destruct (sort_order F) as [[|a s]|]; reflexivity.
  - simpl. unfold onSortOrderToggled. fold F.
    replace (or_str (sort_by F) (lit "created_at"))
      with (held (sort_by F) (lit "created_at"))
      by (destruct (sort_by F) as [[|a s]|]; reflexivity).
    destruct (opt_str_eq_dec (sort_order F) (Some (lit "asc"))) as [E|N].
    + rewrite E. reflexivity.
    + apply opt_str_eqb_neq in N. rewrite N. reflexivity.
Qed.

(** The direction button flips the direction shown: ascending becomes
    descending; descending, also when only shown by default, becomes
    ascending. *)
Example sort_toggle_flips :
  sort_order (onSortOrderToggled (with_sort emptyFilters None (Some (lit "asc"))))
    = Some (lit "desc")
  /\ sort_order (onSortOrderToggled (with_sort emptyFilters None (Some (lit "desc"))))
    = Some (lit "asc")
  /\ onSortOrderToggled emptyFilters
    = with_sort emptyFilters (Some (lit "created_at")) (Some (lit "asc")).
Proof. repeat split. Qed.

(** C9 - clear all.  Whatever the committed state, clearing emits one
    state, the empty FilterState: every field absent. *)
Theorem C9_clear_all (st : State) :
  step st ClearClicked = (st, [emptyFilters])
  /\ clearAllFilters (filters st) = emptyFilters
  /\ (search emptyFilters, category emptyFilters, sort_by emptyFilters,
      sort_order emptyFilters, dietary_tags emptyFilters)
     = (None, None, None, None, None).
Proof. repeat split. Qed.

End MoreHandlers.

Section DoubleToggle.
Import Js JsFacts.

Lemma newTags_twice (s : list Z) (t : Z) :
  newTags (newTags s t) t =
  if in_dec Z.eq_dec t s then remove Z.eq_dec t s ++ [t] else s.
Proof.
  rewrite (newTags_spec s t). destruct (in_dec Z.eq_dec t s) as [H|H].
  - rewrite newTags_spec.
    destruct (in_dec Z.eq_dec t (remove Z.eq_dec t s)) as [H'|_];
      [|reflexivity].
    exfalso. exact (remove_In Z.eq_dec s t H').
  - rewrite newTags_spec.
    destruct (in_dec Z.eq_dec t (s ++ [t])) as [_|H'].
    + rewrite remove_snoc_same. apply notin_remove. exact H.
    + exfalso. apply H', in_or_app. right; left; reflexivity.
Qed.

Lemma remove_snoc_In (s : list Z) (t x : Z) :
  In t s -> (In x (remove Z.eq_dec t s ++ [t]) <-> In x s).
Proof.
  intros Ht. split.
  - intros H. apply in_app_or in H. destruct H as [H | [<- | []]].
    + apply in_remove in H. tauto.
    + exact Ht.
  - intros H. apply in_or_app. destruct (Z.eq_dec x t) as [->|N].
    + right; left; reflexivity.
    + left. apply in_in_remove; assumption.
Qed.

(** C10 - toggling twice.  Toggling [t] twice leaves the same tags as a
    set.  The list itself comes back exactly when [t] was not selected or
    its only occurrence was the last element; when [t] was selected, the
    result is the other tags in their order followed by [t]. *)
Theorem C10_double_toggle (F : MealFilters) (t : Z) :
  let s := currentTags F in
  let r := currentTags
             (handleDietaryTagToggle (handleDietaryTagToggle F t) t) in
  (forall x, In x r <-> In x s)
  /\ (r = s <-> ~ In t s \/ exists p, s = p ++ [t] /\ ~ In t p)
  /\ r = (if in_dec Z.eq_dec t s then remove Z.eq_dec t s ++ [t] else s).
Proof.
  intros s r.
  assert (E : r = if in_dec Z.eq_dec t s
                  then remove Z.eq_dec t s ++ [t] else s).
  { unfold r. rewrite !currentTags_toggle. apply newTags_twice. }
  split; [|split; [|exact E]]; rewrite E;
    destruct (in_dec Z.eq_dec t s) as [H|H].
  - intros x. apply remove_snoc_In. exact H.
  - tauto.
  - split.
    + intros Es. right. exists (remove Z.eq_dec t s).
      split; [symmetry; exact Es | apply remove_In].
    + intros [N | (p & Es & Np)]; [contradiction|].
      rewrite Es at 1. rewrite remove_snoc_same, notin_remove by exact Np.
      symmetry. exact Es.
  - split; [intros _; left; exact H | reflexivity].
Qed.

(** The reading of C10 with "[t] is the last element" fails when [t]
    occurs more than once: every occurrence is removed, one comes back. *)
Lemma C10_double_toggle_counterexample :
  let F := with_dietary_tags emptyFilters (Some [1; 1]%Z) in
  let t := 1%Z in
  let s := currentTags F in
  let r := currentTags
             (handleDietaryTagToggle (handleDietaryTagToggle F t) t) in
  ~ (r = s <-> ~ In t s \/ exists p, s = p ++ [t]).
Proof.
  intros F t s r [_ H].
  assert (E : r = s).
  { apply H. right. exists [1%Z]. reflexivity. }
  discriminate E.
Qed.

(** Moving to the end: [[1,2,3]], toggle 1 twice. *)
Example double_toggle_moves :
  currentTags
    (handleDietaryTagToggle
       (handleDietaryTagToggle
          (with_dietary_tags emptyFilters (Some [1; 2; 3]%Z)) 1) 1)
  = [2; 3; 1]%Z.
Proof. reflexivity. Qed.

End DoubleToggle.

(* ================================================================== *)
(** ** The debounce machine *)

Section Machine.
Import Js JsFacts.

Lemma run_app (es1 es2 : list Event) : forall st,
  run st (es1 ++ es2) =
  (fst (run (fst (run st es1)) es2),
   snd (run st es1) ++ snd (run (fst (run st es1)) es2)).
Proof.
  induction es1 as [|e es1 IH]; intros st; simpl.
  - destruct (run st es2); reflexivity.
  - destruct (step st e) as [st1 o1]. rewrite IH.
    destruct (run st1 es1) as [st2 o2]. simpl.
    rewrite app_assoc. reflexivity.
Qed.

Lemma emissions_app (st : State) (es1 es2 : list Event) :
  emissions st (es1 ++ es2) =
  emissions st es1 ++ emissions (fst (run st es1)) es2.
Proof. unfold emissions. rewrite run_app. reflexivity. Qed.

Lemma emissions_cons (st : State) (e : Event) (es : list Event) :
  emissions st (e :: es) = snd (step st e) ++ emissions (fst (step st e)) es.
Proof.
  unfold emissions. simpl. destruct (step st e) as [st1 o1]. simpl.
  destruct (run st1 es); reflexivity.
Qed.

(** What the timer callback emits, with the guard read as an equation. *)
Lemma commit_spec (F : MealFilters) (draft : str) :
  commit F draft =
  if str_eq_dec (trim draft) (or_str (search F) empty) then []
  else [with_search F (if str_eq_dec (trim draft) empty
                       then None else Some (trim draft))].
Proof.
  unfold commit, timer_callback. simpl.
  destruct (str_eq_dec (trim draft) (or_str (search F) empty)) as [E|N].
  - rewrite E, str_eqb_refl. reflexivity.
  - apply str_eqb_neq in N. rewrite N. simpl.
    rewrite or_undefined_spec. reflexivity.
Qed.

Lemma commit_length (F : MealFilters) (draft : str) :
  (List.length (commit F draft) <= 1)%nat.
Proof.
  rewrite commit_spec.
  destruct (str_eq_dec (trim draft) (or_str (search F) empty)); simpl; lia.
Qed.

(** With no timer pending, the passing of time emits nothing. *)
Lemma elapse_idle (ds : list nat) : forall st,
  timer st = None ->
  run st (map Elapse ds) = (st, []).
Proof.
  induction ds as [|d ds IH]; intros st H; simpl; [reflexivity|].
  rewrite H. rewrite (IH st H). reflexivity.
Qed.

(** A pending timer fires once, when the time passed reaches what it had
    left, and calls back with the values it closed over. *)
Lemma elapse_pending (ds : list nat) : forall F draft tm r,
  (0 < r)%nat ->
  emissions (mkState F draft (Some (mkTimer r (cap_localSearch tm) (cap_filters tm))))
    (map Elapse ds)
  = if (r <=? list_sum ds)%nat then timer_callback tm else [].
Proof.
  induction ds as [|d ds IH]; intros F draft tm r Hr.
  - simpl. destruct (Nat.leb_spec r 0); [lia | reflexivity].
  - change (list_sum (d :: ds)) with (d + list_sum ds)%nat.
    cbn [map]. rewrite emissions_cons.
    cbn [step timer remaining cap_localSearch cap_filters filters localSearch].
    destruct (Nat.leb_spec r d) as [Hle|Hlt]; cbn [fst snd].
    + unfold emissions. rewrite elapse_idle by reflexivity. cbn [snd].
      rewrite app_nil_r.
      destruct (Nat.leb_spec r (d + list_sum ds)); [reflexivity | lia].
    + rewrite (IH F draft tm (r - d)%nat) by lia. cbn [app].
      destruct (Nat.leb_spec (r - d) (list_sum ds));
        destruct (Nat.leb_spec r (d + list_sum ds)); try lia; reflexivity.
Qed.

(** A freshly set timer, left alone. *)
Lemma elapse_fresh (F : MealFilters) (draft : str) (ds : list nat) :
  emissions (mkState F draft (start_timer F draft)) (map Elapse ds)
  = if (DEBOUNCE <=? list_sum ds)%nat then commit F draft else [].
Proof.
  unfold start_timer.
  apply (elapse_pending ds F draft (mkTimer DEBOUNCE draft F) DEBOUNCE).
  unfold DEBOUNCE; lia.
Qed.

(** An edit that changes the draft restarts the timer and emits nothing. *)
Lemma step_edit (st : State) (v : str) :
  str_eqb v (localSearch st) = false ->
  step st (Edit v) = (mkState (filters st) v (start_timer (filters st) v), []).
Proof. intros H. simpl. rewrite H. reflexivity. Qed.

(** No event makes more than one [onFiltersChange] call. *)
Lemma step_at_most_one (st : State) (e : Event) :
  (List.length (snd (step st e)) <= 1)%nat.
Proof.
  destruct e; simpl; try lia.
  - destruct (str_eqb v (localSearch st)); simpl; lia.
  - destruct (timer st) as [t|]; simpl; [|lia].
    destruct (remaining t <=? d)%nat; simpl; [|lia].
    destruct t as [r l F]. apply (commit_length F l).
Qed.

(** The draft starts as the committed search, the empty string when
    absent. *)
Lemma mount_draft (F : MealFilters) :
  localSearch (mount F) = match search F with Some s => s | None => empty end.
Proof. unfold mount. cbn [localSearch]. apply or_str_empty. Qed.

(** The timer invariant holds from the first render on. *)
Lemma timer_current_mount (F : MealFilters) : timer_current (mount F).
Proof. unfold timer_current, mount. simpl. unfold DEBOUNCE. repeat split; lia. Qed.

Lemma timer_current_step (st : State) (e : Event) :
  timer_current st -> timer_current (fst (step st e)).
Proof.
  unfold timer_current. intros H.
  destruct e; simpl; try exact H.
  - destruct (str_eqb v (localSearch st)); simpl; [exact H|].
    unfold DEBOUNCE. repeat split; lia.
  - destruct (timer st) as [t|] eqn:Et; simpl; [|rewrite Et; exact I].
    destruct (Nat.leb_spec (remaining t) d); simpl; [exact I|].
    destruct H as (H1 & H2 & H3). repeat split; auto; lia.
  - unfold DEBOUNCE. repeat split; lia.
Qed.

Lemma timer_current_run (es : list Event) : forall st,
  timer_current st -> timer_current (fst (run st es)).
Proof.
  induction es as [|e es IH]; intros st H; simpl; [exact H|].
  pose proof (@timer_current_step st e H) as H1.
  destruct (step st e) as [st1 o1]. simpl in H1.
  specialize (IH st1 H1). destruct (run st1 es). exact IH.
Qed.

(** After unmounting, the passing of time emits nothing. *)
Lemma unmount_silent (st : State) (ds : list nat) :
  emissions (unmount st) (map Elapse ds) = [].
Proof. unfold emissions. rewrite elapse_idle; reflexivity. Qed.

End Machine.

(* ================================================================== *)
(** ** Debounced commit, bursts of edits, external resets *)

Section Debounce.
Import Js JsFacts.

(** C1 - debounced commit.  From any state with committed props [F]: the
    draft is edited to [V] (a change of the draft) and [trim V] differs
    from the committed search (the empty string when absent).  If then
    time passes with no other event - no further edit and no render of
    the parent with new props - nothing is emitted while less than the
    delay has passed, and once it has passed exactly one state has been
    emitted: [F] with [search] replaced by [trim V], absent when [trim V]
    is empty, every other field as in [F].  If instead the parent renders
    with new props of the same search before the delay is over, the delay
    starts again at that render, and the one emission, made a full delay
    later, is the new props with that search. *)
Theorem C1_debounced_commit (st : State) (V : str) (ds : list nat)
  (Hedit : V <> localSearch st)
  (Hquiet : (DEBOUNCE <= list_sum ds)%nat)
  (Hdiff : trim V <> match search (filters st) with
                     | Some s => s | None => empty end) :
  let F := filters st in
  let committed G :=
    mkFilters (if str_eq_dec (trim V) empty then None else Some (trim V))
      (category G) (sort_by G) (sort_order G) (dietary_tags G) in
  emissions st (Edit V :: map Elapse ds) = [committed F]
  /\ (forall ds', (list_sum ds' < DEBOUNCE)%nat ->
        emissions st (Edit V :: map Elapse ds') = [])
  /\ (forall d F' ds', (d < DEBOUNCE)%nat -> search F' = search F ->
        emissions st (Edit V :: Elapse d :: Props F' :: map Elapse ds')
        = if (DEBOUNCE <=? list_sum ds')%nat then [committed F'] else []).
Proof.
  intros F committed.
  apply str_eqb_neq in Hedit. rewrite <- or_str_empty in Hdiff.
  split; [|split; [intros ds' Hearly | intros d F' ds' Hd Hsame]];
    rewrite emissions_cons, (step_edit _ _ Hedit); cbn [fst snd app].
  - rewrite elapse_fresh.
    destruct (Nat.leb_spec DEBOUNCE (list_sum ds)); [|lia].
    rewrite commit_spec.
    destruct (str_eq_dec (trim V) (or_str (search (filters st)) empty));
      [contradiction | reflexivity].
  - rewrite elapse_fresh.
    destruct (Nat.leb_spec DEBOUNCE (list_sum ds')); [lia | reflexivity].
  - rewrite emissions_cons.
    cbn [step timer start_timer remaining cap_localSearch cap_filters
         filters localSearch].
    destruct (Nat.leb_spec DEBOUNCE d) as [|_]; [lia|]. cbn [fst snd app].
    rewrite emissions_cons. cbn [step filters localSearch fst snd app].
    fold F. rewrite (proj2 (opt_str_eqb_eq _ _) Hsame), elapse_fresh.
    destruct (DEBOUNCE <=? list_sum ds')%nat; [|reflexivity].
    rewrite commit_spec, Hsame.
    destruct (str_eq_dec (trim V) (or_str (search F) empty));
      [contradiction | reflexivity].
Qed.

(** The spec's scenario: committed [{}], draft ["  Pancakes "]; and the
    same edit with a render of the parent 200 units into the delay. *)
Lemma C1_debounced_commit_witness :
  emissions (mount emptyFilters) [Edit (lit "  Pancakes "); Elapse 300]
  = [mkFilters (Some (lit "Pancakes")) None None None None]
  /\ emissions (mount emptyFilters)
       [Edit (lit "  Pancakes "); Elapse 200;
        Props (mkFilters None None (Some (lit "name")) None None);
        Elapse 300]
     = [mkFilters (Some (lit "Pancakes")) None (Some (lit "name")) None None].
Proof.
  assert (Hedit : lit "  Pancakes " <> localSearch (mount emptyFilters))
    by discriminate.
  assert (Hquiet : (DEBOUNCE <= list_sum [300])%nat)
    by (unfold DEBOUNCE; simpl; lia).
  assert (Hdiff : trim (lit "  Pancakes ")
                  <> match search (filters (mount emptyFilters)) with
                     | Some s => s | None => empty end)
    by discriminate.
  assert (Hd : (200 < DEBOUNCE)%nat) by (unfold DEBOUNCE; lia).
  destruct (C1_debounced_commit (mount emptyFilters) _ [300]
              Hedit Hquiet Hdiff) as (H1 & _ & H3).
  split; [exact H1|].
  exact (H3 200%nat (mkFilters None None (Some (lit "name")) None None)
           [300%nat] Hd eq_refl).
Defined.

(** With no further edit the delay can still be cut short: the parent
    renders with a new (here equal) [filters] object 299 units after the
    edit, the timer starts again, and 598 units after the edit nothing
    has been emitted. *)
Lemma C1_debounced_commit_counterexample :
  let st := mount emptyFilters in
  let V := lit "Pancakes" in
  let es := [Edit V; Elapse 299; Props emptyFilters; Elapse 299] in
  V <> localSearch st
  /\ trim V <> match search (filters st) with
               | Some s => s | None => empty end
  /\ forallb (fun e => negb (is_edit e)) (tl es) = true
  /\ (DEBOUNCE <= 299 + 299)%nat
  /\ emissions st es = [].
Proof.
  repeat split; try discriminate. unfold DEBOUNCE. lia.
Qed.

(** Time alone changes neither the props nor the draft. *)
Lemma elapse_keeps (ds : list nat) : forall st,
  filters (fst (run st (map Elapse ds))) = filters st
  /\ localSearch (fst (run st (map Elapse ds))) = localSearch st.
Proof.
  induction ds as [|d ds IH]; intros st; [split; reflexivity|].
  cbn [map run]. destruct (step st (Elapse d)) as [st1 o1] eqn:E.
  specialize (IH st1). destruct (run st1 (map Elapse ds)) as [st2 o2].
  cbn [fst] in *.
  assert (K : filters st1 = filters st /\ localSearch st1 = localSearch st).
  { simpl in E. destruct (timer st) as [t|];
      [destruct (remaining t <=? d)%nat|]; inversion E; split; reflexivity. }
  destruct IH as [-> ->]. exact K.
Qed.

(** Once the parent adopts the emitted state, the draft is reset to the
    trimmed value and the restarted timer finds nothing to commit: the
    edit has cost exactly one emission. *)
Lemma commit_settles (st : State) (V : str) (ds ds' : list nat) :
  V <> localSearch st ->
  (DEBOUNCE <= list_sum ds)%nat ->
  trim V <> or_str (search (filters st)) empty ->
  let F' := with_search (filters st) (or_undefined (trim V)) in
  emissions st (Edit V :: map Elapse ds ++ Props F' :: map Elapse ds')
  = [F'].
Proof.
  intros Hedit Hquiet Hdiff F'. apply str_eqb_neq in Hedit.
  assert (Es : or_str (search F') empty = trim V).
  { unfold F'. simpl. rewrite or_str_empty, or_undefined_spec.
    destruct (str_eq_dec (trim V) []) as [E|_];
      [symmetry; exact E | reflexivity]. }
  assert (Hne : opt_str_eqb (search F') (search (filters st)) = false).
  { apply opt_str_eqb_neq. intros E. apply Hdiff. rewrite <- E, Es.
    reflexivity. }
  rewrite emissions_cons, (step_edit _ _ Hedit). cbn [fst snd app].
  rewrite emissions_app, elapse_fresh.
  destruct (Nat.leb_spec DEBOUNCE (list_sum ds)); [|lia].
  rewrite commit_spec, <- or_undefined_spec.
  destruct (str_eq_dec (trim V) (or_str (search (filters st)) empty));
    [contradiction|]. fold F'.
  rewrite emissions_cons. cbn [step snd fst].
  destruct (elapse_keeps ds
              (mkState (filters st) V (start_timer (filters st) V)))
    as [-> ->].
  cbn [filters localSearch]. rewrite Hne, Es, elapse_fresh.
  destruct (DEBOUNCE <=? list_sum ds')%nat; [|reflexivity].
  rewrite commit_spec, Es, trim_idem.
  destruct (str_eq_dec (trim V) (trim V)); [reflexivity | congruence].
Qed.

End Debounce.

Section Bursts.
Import Js JsFacts.

Lemma last_cons_default (m : list str) : forall x a b,
  last (x :: m) a = last (x :: m) b.
Proof.
  induction m as [|y m IH]; intros x a b; [reflexivity|].
  change (last (y :: m) a = last (y :: m) b). apply IH.
Qed.

Lemma final_value_cons (V : str) (g : nat) (v : str) (l : list (nat * str)) :
  final_value V ((g, v) :: l) = final_value v l.
Proof.
  unfold final_value. cbn [map snd].
  destruct (map snd l) as [|y m]; [reflexivity|].
  change (last (y :: m) V = last (y :: m) v). apply last_cons_default.
Qed.

(** A burst of further edits, each one changing the draft before the
    timer of the previous one runs out: nothing is emitted, and the timer
    left standing is a fresh one for the last value. *)
Lemma burst_run (F : MealFilters) (l : list (nat * str)) : forall V,
  each_changes V l ->
  Forall (fun p => (fst p < DEBOUNCE)%nat) l ->
  run (mkState F V (start_timer F V)) (later_edits l)
  = (mkState F (final_value V l) (start_timer F (final_value V l)), []).
Proof.
  induction l as [|[g v] l IH]; intros V Hchg Hgaps; [reflexivity|].
  destruct Hchg as [Hv Hchg]. inversion Hgaps as [|? ? Hg Hgaps']; subst.
  cbn [fst] in Hg. cbn [later_edits run].
  cbn [step timer start_timer remaining cap_localSearch cap_filters
       filters localSearch].
  destruct (Nat.leb_spec DEBOUNCE g) as [|_]; [lia|].
  cbn [step localSearch filters]. rewrite Hv.
  rewrite (IH v Hchg Hgaps'). cbn [app].
  rewrite final_value_cons. reflexivity.
Qed.

(** C2 - last write wins.  A burst of draft edits, each a change of the
    draft and each made before the delay of the previous one has run out,
    with no render of the parent with new props in between or after,
    emits nothing while it lasts.  Once the last edit's delay has passed,
    however much more time passes, at most one state has been emitted:
    none when the trimmed last value equals the committed search (the
    empty string when absent), otherwise the committed state with
    [search] replaced by the trimmed last value (absent when empty) and
    every other field unchanged.  No earlier value of the burst is
    emitted.  Each category, sort, tag or clear action makes exactly one
    [onFiltersChange] call, and no single event, a timer expiry
    included, makes more than one. *)
Theorem C2_last_write_wins (st : State) (V : str) (l : list (nat * str))
  (ds : list nat)
  (Hfirst : V <> localSearch st)
  (Hchg : each_changes V l)
  (Hgaps : Forall (fun p => (fst p < DEBOUNCE)%nat) l)
  (Hquiet : (DEBOUNCE <= list_sum ds)%nat) :
  let F := filters st in
  let Vn := trim (final_value V l) in
  emissions st (Edit V :: later_edits l) = []
  /\ emissions st (Edit V :: later_edits l ++ map Elapse ds)
     = (if str_eq_dec Vn (match search F with Some s => s | None => empty end)
        then []
        else [mkFilters (if str_eq_dec Vn empty then None else Some Vn)
                (category F) (sort_by F) (sort_order F) (dietary_tags F)])
  /\ (forall st' e, is_handler e = true ->
        List.length (snd (step st' e)) = 1%nat)
  /\ (forall st' e, (List.length (snd (step st' e)) <= 1)%nat).
Proof.
  intros F Vn. apply str_eqb_neq in Hfirst.
  split; [|split; [|split; [|apply step_at_most_one]]].
  - rewrite emissions_cons, (step_edit _ _ Hfirst). cbn [fst snd app].
    unfold emissions. rewrite (burst_run _ l V Hchg Hgaps). reflexivity.
  - rewrite emissions_cons, (step_edit _ _ Hfirst). cbn [fst snd app].
    rewrite emissions_app. unfold emissions at 1.
    rewrite (burst_run _ l V Hchg Hgaps). cbn [fst snd app].
    rewrite elapse_fresh.
    destruct (Nat.leb_spec DEBOUNCE (list_sum ds)); [|lia].
    rewrite commit_spec, or_str_empty. reflexivity.
  - intros st' e He. destruct e; try discriminate He; reflexivity.
Qed.

Lemma C2_last_write_wins_witness :
  emissions (mount emptyFilters)
    [Edit (lit "Pan"); Elapse 100; Edit (lit "Pancakes "); Elapse 300;
     Elapse 300]
  = [mkFilters (Some (lit "Pancakes")) None None None None].
Proof.
  assert (Hfirst : lit "Pan" <> localSearch (mount emptyFilters))
    by discriminate.
  assert (Hchg : each_changes (lit "Pan") [(100%nat, lit "Pancakes ")])
    by (split; [reflexivity | exact I]).
  assert (Hgaps : Forall (fun p => (fst p < DEBOUNCE)%nat)
                    [(100%nat, lit "Pancakes ")])
    by (repeat constructor; unfold DEBOUNCE; simpl; lia).
  assert (Hquiet : (DEBOUNCE <= list_sum [300; 300])%nat)
    by (unfold DEBOUNCE; simpl; lia).
  exact (proj1 (proj2 (C2_last_write_wins (mount emptyFilters) _ _
                         [300; 300]%nat Hfirst Hchg Hgaps Hquiet))).
Defined.

(** "Exactly one emission" fails when the burst ends on the committed
    value: committed [{search: "tea"}], type an ["s"], delete it 100 units
    later. *)
Lemma C2_last_write_wins_counterexample :
  let st := mount (with_search emptyFilters (Some (lit "tea"))) in
  let es := [Edit (lit "teas"); Elapse 100; Edit (lit "tea"); Elapse 300] in
  lit "teas" <> localSearch st
  /\ each_changes (lit "teas") [(100%nat, lit "tea")]
  /\ (100 < DEBOUNCE)%nat
  /\ List.length (emissions st es) <> 1%nat.
Proof.
  repeat split; [discriminate | unfold DEBOUNCE; lia | vm_compute; discriminate].
Qed.

(** One edit, three calls: the parent renders with a new [filters]
    object after each emission but does not adopt the emitted search, so
    every restarted timer finds the draft still to be committed. *)
Example edit_not_adopted_repeats :
  emissions (mount emptyFilters)
    [Edit (lit "tea"); Elapse 300; Props emptyFilters; Elapse 300;
     Props emptyFilters; Elapse 300]
  = [mkFilters (Some (lit "tea")) None None None None;
     mkFilters (Some (lit "tea")) None None None None;
     mkFilters (Some (lit "tea")) None None None None].
Proof. reflexivity. Qed.

(** C3 - external reset.  When the parent renders with a committed state
    [F'] whose search differs from the previous one, the draft is at once
    the new committed search (the empty string when absent) and that
    render emits nothing.  While less than the delay has passed nothing
    is emitted; once it has passed, nothing has been emitted if the new
    search value is its own trim, and otherwise one state: [F'] with
    [search] replaced by the trimmed value (absent when empty) and every
    other field unchanged. *)
Theorem C3_external_reset (st : State) (F' : MealFilters) (ds : list nat)
  (Hchg : search F' <> search (filters st)) :
  let s' := match search F' with Some s => s | None => empty end in
  let st' := fst (step st (Props F')) in
  localSearch st' = s'
  /\ filters st' = F'
  /\ snd (step st (Props F')) = []
  /\ emissions st' (map Elapse ds)
     = (if (DEBOUNCE <=? list_sum ds)%nat
        then if str_eq_dec (trim s') s' then []
             else [mkFilters
                     (if str_eq_dec (trim s') empty
                      then None else Some (trim s'))
                     (category F') (sort_by F') (sort_order F')
                     (dietary_tags F')]
        else []).
Proof.
  intros s' st'. apply opt_str_eqb_neq in Hchg.
  assert (E : st' = mkState F' s' (start_timer F' s')).
  { unfold st'. cbn [step fst]. rewrite Hchg, or_str_empty. reflexivity. }
  rewrite E. repeat split.
  rewrite elapse_fresh, commit_spec, or_str_empty. reflexivity.
Qed.

(** Clearing from the parent, committed [{search: "soup"}] becomes [{}]:
    the draft is emptied and nothing is emitted.  Committing a padded
    search from the parent, [{search: "soup"}] becomes
    [{search: " miso ", category: "Best for Lunch"}]: the draft is the
    padded value and after the delay the trimmed one is emitted. *)
Lemma C3_external_reset_witness :
  let st := mount (with_search emptyFilters (Some (lit "soup"))) in
  let F' := mkFilters (Some (lit " miso ")) (Some (lit "Best for Lunch"))
              None None None in
  (localSearch (fst (step st (Props emptyFilters))) = empty
   /\ emissions (fst (step st (Props emptyFilters))) [Elapse 300] = [])
  /\ (localSearch (fst (step st (Props F'))) = lit " miso "
      /\ snd (step st (Props F')) = []
      /\ emissions (fst (step st (Props F'))) [Elapse 300]
         = [mkFilters (Some (lit "miso")) (Some (lit "Best for Lunch"))
              None None None]).
Proof.
  intros st F'.
  assert (Hchg : search emptyFilters <> search (filters st)) by discriminate.
  assert (Hchg' : search F' <> search (filters st)) by discriminate.
  destruct (C3_external_reset st emptyFilters [300%nat] Hchg)
    as (H1 & _ & _ & H4).
  destruct (C3_external_reset st F' [300%nat] Hchg')
    as (K1 & _ & K3 & K4).
  split; [split; [exact H1 | exact H4]|].
  split; [exact K1 | split; [exact K3 | exact K4]].
Defined.

(** An emission does follow the reset when the parent commits a search
    with surrounding whitespace: committed [{}] becomes [{search: " a"}],
    and after the delay [{search: "a"}] is emitted. *)
Lemma C3_external_reset_counterexample :
  let st := mount emptyFilters in
  let F' := mkFilters (Some (lit " a")) None None None None in
  search F' <> search (filters st)
  /\ emissions (fst (step st (Props F'))) [Elapse DEBOUNCE]
     = [mkFilters (Some (lit "a")) None None None None].
Proof. split; [discriminate | reflexivity]. Qed.

End Bursts.

(* ================================================================== *)
(** ** Minimality of every emitted state *)

Section Minimality.
Import Js JsFacts.

Lemma or_undefined_minimal (s : str) :
  match or_undefined s with Some x => truthy_str x | None => true end = true.
Proof. unfold or_undefined. destruct (truthy_str s) eqn:E; [exact E | reflexivity]. Qed.

Lemma timer_callback_minimal (t : Timer) :
  is_minimal (cap_filters t) = true ->
  Forall (fun out => is_minimal out = true) (timer_callback t).
Proof.
  intros H. unfold timer_callback.
  destruct (negb _); constructor; [|constructor].
  unfold is_minimal in *. apply andb_true_iff in H. destruct H as [_ Ht].
  cbn [with_search search dietary_tags].
  rewrite or_undefined_minimal. exact Ht.
Qed.

Lemma category_change_minimal (F : MealFilters) (c : str) :
  is_minimal F = true -> is_minimal (handleCategoryChange F c) = true.
Proof. intros H. exact H. Qed.

Lemma sort_change_minimal (F : MealFilters) (k d : str) :
  is_minimal F = true -> is_minimal (handleSortChange F k d) = true.
Proof. intros H. exact H. Qed.

Lemma tag_toggle_minimal (F : MealFilters) (t : Z) :
  is_minimal F = true -> is_minimal (handleDietaryTagToggle F t) = true.
Proof.
  unfold is_minimal. intros H. apply andb_true_iff in H. destruct H as [Hs _].
  unfold handleDietaryTagToggle. cbn [with_dietary_tags search dietary_tags].
  rewrite Hs. destruct (newTags (currentTags F) t); reflexivity.
Qed.

Lemma clear_minimal (F : MealFilters) : is_minimal (clearAllFilters F) = true.
Proof. reflexivity. Qed.

(** One event from a minimal state: minimal emissions, minimal state. *)
Lemma step_minimal (st : State) (e : Event) :
  state_minimal st -> props_minimal e ->
  Forall (fun out => is_minimal out = true) (snd (step st e))
  /\ state_minimal (fst (step st e)).
Proof.
  unfold state_minimal. intros [HF Ht] He.
  destruct e; cbn [step].
  - destruct (str_eqb v (localSearch st)); cbn [fst snd];
      (split; [constructor | split; assumption]).
  - destruct (timer st) as [t|] eqn:Et.
    + destruct (remaining t <=? d)%nat; cbn [fst snd filters timer cap_filters].
      * split; [apply timer_callback_minimal; exact Ht | split; [exact HF | exact I]].
      * split; [constructor | split; assumption].
    + cbn [fst snd]. rewrite Et. split; [constructor | split; [exact HF | exact I]].
  - cbn [fst snd filters timer start_timer cap_filters].
    split; [constructor | split; exact He].
  - split; [repeat constructor; apply category_change_minimal; exact HF
           | split; assumption].
  - split; [repeat constructor; apply sort_change_minimal; exact HF
           | split; assumption].
  - split; [repeat constructor; apply sort_change_minimal; exact HF
           | split; assumption].
  - split; [repeat constructor; apply tag_toggle_minimal; exact HF
           | split; assumption].
  - split; [repeat constructor | split; assumption].
Qed.

Lemma run_minimal (es : list Event) : forall st,
  state_minimal st -> Forall props_minimal es ->
  Forall (fun out => is_minimal out = true) (emissions st es).
Proof.
  induction es as [|e es IH]; intros st Hst Hes; [constructor|].
  inversion Hes as [|? ? He Hes']; subst.
  rewrite emissions_cons. destruct (step_minimal st e Hst He) as [Ho Hst1].
  apply Forall_app. split; [exact Ho | apply IH; assumption].
Qed.

Lemma mount_minimal (F : MealFilters) :
  is_minimal F = true -> state_minimal (mount F).
Proof. intros H. split; exact H. Qed.

(** C6 - minimality is preserved.  Start the component on a minimal
    committed state and let any events happen - edits, time, handler
    calls, and renders in which the parent supplies minimal committed
    states: every state emitted, by the debounced commit or by the
    category, sort, tag and clear handlers, is minimal: no empty-string
    search, no empty tag array. *)
Theorem C6_emissions_minimal (F : MealFilters) (es : list Event)
  (Hmin : is_minimal F = true)
  (Hprops : Forall props_minimal es) :
  Forall (fun out => search out <> Some empty /\ dietary_tags out <> Some [])
    (emissions (mount F) es).
Proof.
  eapply Forall_impl; [|apply run_minimal;
                         [apply mount_minimal; exact Hmin | exact Hprops]].
  intros out H. unfold is_minimal in H. apply andb_true_iff in H.
  destruct H as [Hs Ht]. split.
  - intros E. rewrite E in Hs. discriminate Hs.
  - intros E. rewrite E in Ht. discriminate Ht.
Qed.

Lemma C6_emissions_minimal_witness :
  Forall (fun out => search out <> Some Js.empty /\ dietary_tags out <> Some [])
    (emissions (mount (with_dietary_tags emptyFilters (Some [7%Z])))
       [Edit (Js.lit "  "); TagToggled 7; Elapse 300;
        Props emptyFilters; Edit (Js.lit " tea "); Elapse 300; ClearClicked]).
Proof.
  apply C6_emissions_minimal; [reflexivity|].
  repeat constructor.
Defined.

End Minimality.

(* ================================================================== *)
(** ** More on the debounce: adoption, re-renders, unmount *)

Section DebounceMore.
Import Js JsFacts.

(** What is emitted is the committed state with another search: never the
    committed state again, and the new search is absent or a non-empty
    string that trimming leaves alone. *)
Lemma commit_out (F : MealFilters) (draft : str) (out : MealFilters) :
  In out (commit F draft) ->
  out = with_search F (or_undefined (trim draft))
  /\ trim draft <> or_str (search F) empty
  /\ or_str (search out) empty = trim draft
  /\ search out <> search F.
Proof.
  unfold commit, timer_callback. cbn [cap_localSearch cap_filters].
  destruct (str_eqb (trim draft) (or_str (search F) empty)) eqn:E;
    cbn [negb]; [intros []|].
  intros [<- | []]. apply str_eqb_neq in E.
  assert (Es : or_str (search (with_search F (or_undefined (trim draft)))) empty
               = trim draft).
  { cbn [with_search search]. rewrite or_str_empty, or_undefined_spec.
    destruct (str_eq_dec (trim draft) []) as [E0|_];
      [symmetry; exact E0 | reflexivity]. }
  repeat split; [exact E | exact Es |].
  intros E'. apply E. rewrite <- E', Es. reflexivity.
Qed.

(** X1 - one edit costs one emission.  The draft is edited to [V], the
    delay passes, the callback emits; the parent then renders with the
    emitted state and time goes on: the reset puts the trimmed value in
    the draft, the restarted timer finds it equal to the committed search,
    and the whole trace has emitted that one state only. *)
Theorem X1_edit_adopt_once (st : State) (V : str) (ds ds' : list nat)
  (Hedit : V <> localSearch st)
  (Hquiet : (DEBOUNCE <= list_sum ds)%nat)
  (Hdiff : trim V <> match search (filters st) with
                     | Some s => s | None => empty end) :
  let F' := with_search (filters st)
              (if str_eq_dec (trim V) empty then None else Some (trim V)) in
  emissions st (Edit V :: map Elapse ds ++ Props F' :: map Elapse ds')
  = [F'].
Proof.
  intros F'. unfold F'. rewrite <- or_undefined_spec.
  apply commit_settles; [exact Hedit | exact Hquiet |].
  rewrite or_str_empty. exact Hdiff.
Qed.

Lemma X1_edit_adopt_once_witness :
  emissions (mount emptyFilters)
    [Edit (lit " tea "); Elapse 300;
     Props (with_search emptyFilters (Some (lit "tea"))); Elapse 300; Elapse 300]
  = [with_search emptyFilters (Some (lit "tea"))].
Proof.
  assert (Hedit : lit " tea " <> localSearch (mount emptyFilters))
    by discriminate.
  assert (Hquiet : (DEBOUNCE <= list_sum [300])%nat)
    by (unfold DEBOUNCE; simpl; lia).
  assert (Hdiff : trim (lit " tea ")
                  <> match search (filters (mount emptyFilters)) with
                     | Some s => s | None => empty end)
    by discriminate.
  exact (X1_edit_adopt_once (mount emptyFilters) _ [300] [300; 300]
           Hedit Hquiet Hdiff).
Defined.

(** X2 - adopting a debounced emission settles the component.  In any
    state, if the callback for the current draft and props would emit
    [out], then after the parent renders with [out] the passing of time
    emits nothing more - whether the emission came from an edit, from the
    first render or from an external reset. *)
Theorem X2_adoption_settles (st : State) (out : MealFilters) (ds : list nat)
  (Hout : In out (commit (filters st) (localSearch st))) :
  let st' := fst (step st (Props out)) in
  localSearch st' = trim (localSearch st)
  /\ emissions st' (map Elapse ds) = [].
Proof.
  intros st'. destruct (commit_out _ _ _ Hout) as (_ & _ & Es & Hne).
  apply opt_str_eqb_neq in Hne.
  assert (E : st' = mkState out (trim (localSearch st))
                      (start_timer out (trim (localSearch st)))).
  { unfold st'. cbn [step fst]. rewrite Hne, Es. reflexivity. }
  rewrite E. split; [reflexivity|].
  rewrite elapse_fresh. destruct (DEBOUNCE <=? list_sum ds)%nat; [|reflexivity].
  rewrite commit_spec, Es, trim_idem.
  destruct (str_eq_dec (trim (localSearch st)) (trim (localSearch st)));
    [reflexivity | congruence].
Qed.

(** A committed search with surrounding whitespace, first normalised by
    the component, then adopted. *)
Lemma X2_adoption_settles_witness :
  let st := mount (with_search emptyFilters (Some (lit " a"))) in
  emissions (fst (step st (Props (with_search emptyFilters (Some (lit "a"))))))
    [Elapse 300; Elapse 300] = [].
Proof.
  intros st.
  assert (Hout : In (with_search emptyFilters (Some (lit "a")))
                   (commit (filters st) (localSearch st)))
    by (left; reflexivity).
  exact (proj2 (X2_adoption_settles st _ [300; 300]%nat Hout)).
Defined.

(** X3 - what the debounce emits.  A state emitted by the timer callback
    is the committed state with only [search] changed, it is never the
    committed state again, and its search is absent or a non-empty string
    with no whitespace at either end. *)
Theorem X3_commit_emits_change (F : MealFilters) (draft : str)
  (out : MealFilters) (Hout : In out (commit F draft)) :
  out = with_search F (search out)
  /\ search out <> search F
  /\ match search out with
     | Some s => s <> empty /\ trim s = s
     | None => True
     end.
Proof.
  destruct (commit_out _ _ _ Hout) as (E & _ & _ & Hne).
  split; [rewrite E at 1; rewrite E; reflexivity|].
  split; [exact Hne|].
  rewrite E. cbn [with_search search]. rewrite or_undefined_spec.
  destruct (str_eq_dec (trim draft) []) as [_|N]; [exact I|].
  split; [exact N | apply trim_idem].
Qed.

Lemma X3_commit_emits_change_witness :
  let F := with_category emptyFilters (Some (lit "Best for Lunch")) in
  let out := with_search F (Some (lit "rice bowl")) in
  In out (commit F (lit "  rice bowl ")) /\ search out <> search F.
Proof.
  intros F out.
  assert (Hout : In out (commit F (lit "  rice bowl ")))
    by (left; reflexivity).
  split; [exact Hout|].
  exact (proj1 (proj2 (X3_commit_emits_change F _ out Hout))).
Defined.

End DebounceMore.

Section Ownership.
Import Js JsFacts.

(** X4 - first render.  Mounted on a committed state and left alone, the
    component emits nothing before the delay; after it, nothing if the
    committed search (the empty string when absent) is its own trim, and
    otherwise the committed state with the search trimmed (absent when
    that is empty) and every other field unchanged. *)
Theorem X4_mount_normalises (F : MealFilters) (ds : list nat) :
  let s := match search F with Some s => s | None => empty end in
  localSearch (mount F) = s
  /\ emissions (mount F) (map Elapse ds)
     = (if (DEBOUNCE <=? list_sum ds)%nat
        then if str_eq_dec (trim s) s then []
             else [mkFilters
                     (if str_eq_dec (trim s) empty
                      then None else Some (trim s))
                     (category F) (sort_by F) (sort_order F)
                     (dietary_tags F)]
        else []).
Proof.
  intros s. split; [apply mount_draft|].
  unfold mount. rewrite elapse_fresh, commit_spec, !or_str_empty.
  reflexivity.
Qed.

(** Mounted on [{search: " tea ", dietary_tags: [4]}]. *)
Lemma X4_mount_normalises_witness :
  let F := mkFilters (Some (lit " tea ")) None None None (Some [4%Z]) in
  localSearch (mount F) = lit " tea "
  /\ emissions (mount F) [Elapse 299] = []
  /\ emissions (mount F) [Elapse 299; Elapse 1]
     = [mkFilters (Some (lit "tea")) None None None (Some [4%Z])].
Proof.
  intros F.
  split; [exact (proj1 (X4_mount_normalises F []))|].
  split; [exact (proj2 (X4_mount_normalises F [299%nat]))
         | exact (proj2 (X4_mount_normalises F [299%nat; 1%nat]))].
Defined.

(** X5 - a pending edit survives a re-render.  The draft is edited to
    [V]; before the delay is over the parent renders with new props whose
    search is the one already committed (say, after a category pick).
    The draft is kept and the delay starts again from that render:
    nothing is emitted until a full delay has passed since, and then the
    commit is made on the new props. *)
Theorem X5_pending_edit_survives (st : State) (V : str) (d : nat)
  (F' : MealFilters) (ds : list nat)
  (Hedit : V <> localSearch st)
  (Hd : (d < DEBOUNCE)%nat)
  (Hsame : search F' = search (filters st)) :
  emissions st (Edit V :: Elapse d :: Props F' :: map Elapse ds)
  = (if (DEBOUNCE <=? list_sum ds)%nat
     then if str_eq_dec (trim V)
               (match search F' with Some s => s | None => empty end)
          then []
          else [with_search F'
                  (if str_eq_dec (trim V) empty then None else Some (trim V))]
     else []).
Proof.
  apply str_eqb_neq in Hedit. apply opt_str_eqb_eq in Hsame.
  rewrite emissions_cons, (step_edit _ _ Hedit). cbn [fst snd app].
  rewrite emissions_cons.
  cbn [step timer start_timer remaining cap_localSearch cap_filters
       filters localSearch].
  destruct (Nat.leb_spec DEBOUNCE d) as [|_]; [lia|]. cbn [fst snd app].
  rewrite emissions_cons. cbn [step filters localSearch fst snd app].
  rewrite Hsame, elapse_fresh, commit_spec, or_str_empty. reflexivity.
Qed.

(** Typing while picking a category: both end up in the committed state. *)
Lemma X5_pending_edit_survives_witness :
  let F := emptyFilters in
  let F' := handleCategoryChange F (lit "Best for Lunch") in
  emissions (mount F)
    [Edit (lit "rice"); Elapse 200; Props F'; Elapse 299]
  = []
  /\ emissions (mount F)
       [Edit (lit "rice"); Elapse 200; Props F'; Elapse 300]
     = [mkFilters (Some (lit "rice")) (Some (lit "Best for Lunch"))
          None None None].
Proof.
  intros F F'.
  assert (Hedit : lit "rice" <> localSearch (mount F)) by discriminate.
  assert (Hd : (200 < DEBOUNCE)%nat) by (unfold DEBOUNCE; lia).
  assert (Hsame : search F' = search (filters (mount F))) by reflexivity.
  split.
  - exact (X5_pending_edit_survives (mount F) _ 200 F' [299]%nat
             Hedit Hd Hsame).
  - exact (X5_pending_edit_survives (mount F) _ 200 F' [300]%nat
             Hedit Hd Hsame).
Defined.

Lemma step_keeps (st : State) (e : Event) :
  is_props e = false ->
  filters (fst (step st e)) = filters st
  /\ localSearch (fst (step st e)) = last_edit [e] (localSearch st).
Proof.
  intros H. destruct e; try discriminate H; cbn [step last_edit];
    try (split; reflexivity).
  - destruct (str_eqb v (localSearch st)) eqn:E; [|split; reflexivity].
    apply str_eqb_eq in E. subst v. split; reflexivity.
  - destruct (timer st) as [t|]; [destruct (remaining t <=? d)%nat|];
      split; reflexivity.
Qed.

Lemma last_edit_cons (e : Event) (es : list Event) (dflt : str) :
  last_edit (e :: es) dflt = last_edit es (last_edit [e] dflt).
Proof. destruct e; reflexivity. Qed.

(** X6 - who owns what.  As long as the parent does not render with new
    props, the component's [filters] stay the ones it was given - its own
    emissions never change them - and the draft is the value of the last
    edit: handlers and the timer leave it alone. *)
Theorem X6_props_and_draft_owners (st : State) (es : list Event)
  (Hno : forallb (fun e => negb (is_props e)) es = true) :
  filters (fst (run st es)) = filters st
  /\ localSearch (fst (run st es)) = last_edit es (localSearch st).
Proof.
  revert st Hno. induction es as [|e es IH]; intros st Hno;
    [split; reflexivity|].
  cbn [forallb] in Hno. apply andb_true_iff in Hno. destruct Hno as [He Hes].
  apply negb_true_iff in He.
  destruct (step_keeps st e He) as [K1 K2].
  cbn [run]. destruct (step st e) as [st1 o1]. cbn [fst] in K1, K2.
  specialize (IH st1 Hes). destruct (run st1 es) as [st2 o2]. cbn [fst] in *.
  rewrite last_edit_cons, <- K1, <- K2. exact IH.
Qed.

Lemma X6_props_and_draft_owners_witness :
  let st := mount (with_search emptyFilters (Some (lit "tea"))) in
  let es := [Edit (lit "teas"); ClearClicked; Elapse 300; TagToggled 4] in
  filters (fst (run st es)) = with_search emptyFilters (Some (lit "tea"))
  /\ localSearch (fst (run st es)) = lit "teas".
Proof.
  intros st es.
  assert (Hno : forallb (fun e => negb (is_props e)) es = true)
    by reflexivity.
  exact (X6_props_and_draft_owners st es Hno).
Defined.

(** X7 - one timer, never stale.  In every state reached from the first
    render, a pending timer has between 1 and 300 units left and closed
    over the current draft and props; so whatever the passing of time
    emits is the commit of the current draft on the current props. *)
Theorem X7_timer_never_stale (F : MealFilters) (es : list Event) (d : nat) :
  let st := fst (run (mount F) es) in
  match timer st with
  | Some t =>
      cap_localSearch t = localSearch st /\ cap_filters t = filters st /\
      (0 < remaining t <= DEBOUNCE)%nat
  | None => True
  end
  /\ (snd (step st (Elapse d)) = []
      \/ snd (step st (Elapse d)) = commit (filters st) (localSearch st)).
Proof.
  intros st.
  assert (H : timer_current st)
    by (apply timer_current_run, timer_current_mount).
  split; [exact H|].
  unfold timer_current in H. cbn [step].
  destruct (timer st) as [t|]; [|left; reflexivity].
  destruct (remaining t <=? d)%nat; [|left; reflexivity].
  right. cbn [snd]. destruct H as (H1 & H2 & _).
  unfold commit, timer_callback. cbn [cap_localSearch cap_filters].
  rewrite H1, H2. reflexivity.
Qed.

(** X8 - unmounting cancels the debounce.  After the cleanup has run,
    the passing of time emits nothing, whatever edit was pending. *)
Theorem X8_unmount_cancels (st : State) (V : str) (ds : list nat) :
  emissions (unmount st) (map Elapse ds) = []
  /\ emissions (unmount (fst (step st (Edit V)))) (map Elapse ds) = [].
Proof. split; apply unmount_silent. Qed.

End Ownership.

(* ================================================================== *)
(** ** Handlers against what the render shows *)

Section View.
Import Js JsFacts.

Lemma or_str_some_nonempty (s d : str) : s <> empty -> or_str (Some s) d = s.
Proof.
  intros H. destruct s; [exfalso; apply H; reflexivity | reflexivity].
Qed.

Lemma is_MealCategory_cases (c : str) :
  is_MealCategory c = true -> In c MealCategory_labels.
Proof.
  unfold is_MealCategory. rewrite existsb_exists.
  intros (x & Hx & E). apply str_eqb_eq in E. subst. exact Hx.
Qed.

(** X9 - the category select shows what was picked.  After a pick of a
    non-empty value [c] is adopted, the select shows [c] again (['all']
    for the sentinel, which is stored as an absent category), and the
    category chip is shown exactly when [c] is not the sentinel. *)
Theorem X9_category_shown (F : MealFilters) (c : str) (Hc : c <> empty) :
  categorySelectValue (handleCategoryChange F c) = c
  /\ showsCategoryChip (handleCategoryChange F c)
     = (if str_eq_dec c (lit "all") then false else true).
Proof.
  unfold categorySelectValue, showsCategoryChip, handleCategoryChange.
  cbn [with_category category].
  destruct (str_eq_dec c (lit "all")) as [->|N]; [split; reflexivity|].
  apply str_eqb_neq in N. rewrite N.
  split; [apply or_str_some_nonempty; exact Hc|].
  cbn [of_opt_str truthy]. apply truthy_str_nonempty. exact Hc.
Qed.

Lemma X9_category_shown_witness :
  categorySelectValue (handleCategoryChange emptyFilters (lit "Best for Dinner"))
  = lit "Best for Dinner".
Proof.
  assert (Hc : lit "Best for Dinner" <> empty) by discriminate.
  exact (proj1 (X9_category_shown emptyFilters _ Hc)).
Defined.

(** X10 - picking the value already shown changes nothing.  For a
    committed state whose category, when present, is one of the labels,
    the category handler called with the value the select shows returns
    the committed state itself. *)
Theorem X10_category_repick (F : MealFilters) (Htyped : category_typed F) :
  handleCategoryChange F (categorySelectValue F) = F.
Proof.
  destruct F as [s c k d tg]. unfold category_typed in Htyped.
  unfold handleCategoryChange, categorySelectValue, with_category.
  cbn [category search sort_by sort_order dietary_tags] in *.
  destruct c as [c|]; [|reflexivity].
  apply is_MealCategory_cases in Htyped.
  destruct Htyped as [<- | [<- | [<- | [<- | []]]]]; reflexivity.
Qed.

Lemma X10_category_repick_witness :
  let F := mkFilters (Some (lit "tea")) (Some (lit "Best for Snacks"))
             None None (Some [3%Z]) in
  handleCategoryChange F (categorySelectValue F) = F.
Proof.
  intros F.
  assert (Htyped : category_typed F) by reflexivity.
  exact (X10_category_repick F Htyped).
Defined.

(** X11 - the direction button.  One press inverts the icon shown and
    leaves the key shown by the sort select as it is; from the first
    press on the key and the direction are stored explicitly, so a
    third press gives the state of the first. *)
Theorem X11_sort_toggle (F : MealFilters) :
  showsSortAsc (onSortOrderToggled F) = negb (showsSortAsc F)
  /\ sortSelectValue (onSortOrderToggled F) = sortSelectValue F
  /\ onSortOrderToggled (onSortOrderToggled (onSortOrderToggled F))
     = onSortOrderToggled F.
Proof.
  assert (Hkey : forall o, or_str (Some (or_str o (lit "created_at")))
                             (lit "created_at")
                           = or_str o (lit "created_at")).
  { intros [[|a s]|]; reflexivity. }
  unfold showsSortAsc, sortSelectValue, onSortOrderToggled, handleSortChange.
  cbn [with_sort sort_by sort_order search category dietary_tags].
  rewrite !Hkey.
  destruct (opt_str_eqb (sort_order F) (Some (lit "asc")));
    repeat split; reflexivity.
Qed.

(** X12 - picking a sort key.  The sort select then shows the picked key
    (a non-empty value) and the direction icon is the one shown before:
    the direction that was only a default is now stored. *)
Theorem X12_sort_key_pick (F : MealFilters) (k : str) (Hk : k <> empty) :
  sortSelectValue (onSortKeyPicked F k) = k
  /\ showsSortAsc (onSortKeyPicked F k) = showsSortAsc F
  /\ sort_order (onSortKeyPicked F k)
     = Some (match sort_order F with
             | Some s => if str_eq_dec s empty then lit "desc" else s
             | None => lit "desc"
             end).
Proof.
  unfold sortSelectValue, showsSortAsc, onSortKeyPicked, handleSortChange.
  cbn [with_sort sort_by sort_order].
  split; [apply or_str_some_nonempty; exact Hk|].
  destruct (sort_order F) as [[|a s]|]; split; reflexivity.
Qed.

Lemma X12_sort_key_pick_witness :
  onSortKeyPicked emptyFilters (lit "name")
  = with_sort emptyFilters (Some (lit "name")) (Some (lit "desc"))
  /\ sortSelectValue (onSortKeyPicked emptyFilters (lit "name")) = lit "name".
Proof.
  assert (Hk : lit "name" <> empty) by discriminate.
  split; [reflexivity|].
  exact (proj1 (X12_sort_key_pick emptyFilters _ Hk)).
Defined.

(** The clear button and the summary are shown exactly when one of the
    three chips is. *)
Lemma showsClear_chips (F : MealFilters) :
  showsClear F
  = showsSearchChip F || showsCategoryChip F || showsTagsChip F.
Proof.
  unfold showsClear, hasActiveFilters, showsSearchChip, showsCategoryChip,
    showsTagsChip.
  rewrite !truthy_or_val. destruct (dietary_tags F); reflexivity.
Qed.

Lemma tagSelected_In (F : MealFilters) (u : Z) :
  tagSelected F u = true <-> In u (currentTags F).
Proof.
  unfold tagSelected, currentTags. destruct (dietary_tags F) as [l|].
  - apply includes_In.
  - split; [discriminate | intros []].
Qed.

Lemma tagSelected_toggle (F : MealFilters) (t u : Z) :
  tagSelected (handleDietaryTagToggle F t) u
  = if Z.eq_dec u t then negb (tagSelected F t) else tagSelected F u.
Proof.
  apply eq_true_iff_eq. rewrite tagSelected_In, currentTags_toggle, newTags_spec.
  destruct (Z.eq_dec u t) as [->|N].
  - rewrite negb_true_iff, <- not_true_iff_false, tagSelected_In.
    destruct (in_dec Z.eq_dec t (currentTags F)) as [H|H].
    + split; [intros H'; exfalso; exact (remove_In Z.eq_dec _ _ H') | tauto].
    + split; [tauto | intros _; apply in_or_app; right; left; reflexivity].
  - rewrite tagSelected_In.
    destruct (in_dec Z.eq_dec t (currentTags F)) as [H|H].
    + split; [intros H'; apply in_remove in H'; tauto
             | intros H'; apply in_in_remove; assumption].
    + split; [intros H'; apply in_app_or in H';
              destruct H' as [H' | [E | []]]; [exact H' | congruence]
             | intros H'; apply in_or_app; left; exact H'].
Qed.

Lemma existsb_swap (A B : Type) (f : A -> B -> bool)
  (la : list A) (lb : list B) :
  existsb (fun a => existsb (f a) lb) la
  = existsb (fun b => existsb (fun a => f a b) la) lb.
Proof.
  apply eq_true_iff_eq. rewrite !existsb_exists. split.
  - intros (a & Ha & H). apply existsb_exists in H. destruct H as (b & Hb & H).
    exists b. split; [exact Hb|]. apply existsb_exists. exists a. tauto.
  - intros (b & Hb & H). apply existsb_exists in H. destruct H as (a & Ha & H).
    exists a. split; [exact Ha|]. apply existsb_exists. exists b. tauto.
Qed.

Lemma tagButtons_map (tags : list DietaryTag) (F : MealFilters) :
  tagButtons tags F
  = map (fun tag => (tag_name tag, tagSelected F (tag_id tag))) tags.
Proof. destruct tags; reflexivity. Qed.

(** X13 - the summary, its chips and the tag buttons.  The clear button
    and the summary block are shown exactly when at least one of the
    three chips is.  Some tag button is drawn selected exactly when one
    of the committed tag identifiers is the identifier of a tag in
    [dietaryTags]; whenever a button is drawn selected the tags chip is
    shown too. *)
Theorem X13_summary_chips (F : MealFilters) (dietaryTags : list DietaryTag) :
  showsClear F
  = showsSearchChip F || showsCategoryChip F || showsTagsChip F
  /\ existsb snd (tagButtons dietaryTags F)
     = existsb (fun id => existsb (fun tag => Z.eqb (tag_id tag) id)
                            dietaryTags)
         (currentTags F)
  /\ implb (existsb snd (tagButtons dietaryTags F)) (showsTagsChip F) = true.
Proof.
  assert (E : existsb snd (tagButtons dietaryTags F)
              = existsb (fun id => existsb (fun tag => Z.eqb (tag_id tag) id)
                                     dietaryTags)
                  (currentTags F)).
  { rewrite tagButtons_map, <- existsb_swap.
    induction dietaryTags as [|tag tags IH]; [reflexivity|].
    cbn [map existsb snd]. rewrite IH. f_equal.
    unfold tagSelected, currentTags, includes.
    destruct (dietary_tags F); reflexivity. }
  split; [apply showsClear_chips|]. split; [exact E|].
  rewrite E. unfold showsTagsChip, currentTags.
  destruct (dietary_tags F) as [[|z l]|]; try reflexivity.
  apply implb_true_r.
Qed.

(** A committed tag with no button: the chip is shown, no button is
    selected. *)
Example chip_without_button :
  let F := with_dietary_tags emptyFilters (Some [99%Z]) in
  let tags := [mkTag 1 (lit "Vegan"); mkTag 2 (lit "Halal")] in
  showsTagsChip F = true
  /\ tagButtons tags F = [(lit "Vegan", false); (lit "Halal", false)]
  /\ tagButtons [] F = [].
Proof. repeat split. Qed.

(** X14 - a tag button is a switch.  After a toggle of [t] is adopted the
    button of [t] is drawn the other way and every other button as
    before; after a sequence of toggles a button differs from before
    exactly when its tag was toggled an odd number of times. *)
Theorem X14_tag_button_switch (F : MealFilters) (t u : Z) (ts : list Z) :
  tagSelected (handleDietaryTagToggle F t) u
  = (if Z.eq_dec u t then negb (tagSelected F t) else tagSelected F u)
  /\ tagSelected (fold_left handleDietaryTagToggle ts F) u
     = xorb (tagSelected F u) (Nat.odd (count_occ Z.eq_dec ts u)).
Proof.
  split; [apply tagSelected_toggle|].
  revert F. induction ts as [|x ts IH]; intros F.
  - cbn. rewrite xorb_false_r. reflexivity.
  - cbn [fold_left count_occ]. rewrite IH, tagSelected_toggle.
    destruct (Z.eq_dec u x) as [->|N].
    + destruct (Z.eq_dec x x) as [_|N]; [|congruence].
      rewrite Nat.odd_succ, <- Nat.negb_odd.
      destruct (tagSelected F x), (Nat.odd (count_occ Z.eq_dec ts x));
        reflexivity.
    + destruct (Z.eq_dec x u) as [E|_]; [congruence | reflexivity].
Qed.

End View.

(* ================================================================== *)
(** ** The selected tags as a list *)

Section TagList.
Import Js JsFacts.

Lemma NoDup_snoc (l : list Z) (t : Z) :
  NoDup l -> ~ In t l -> NoDup (l ++ [t]).
Proof.
  induction l as [|x l IH]; intros Hnd Hnot; simpl.
  - constructor; [intros [] | constructor].
  - inversion Hnd as [|? ? Hx Hl]; subst. constructor.
    + intros H. apply in_app_or in H. destruct H as [H | [E | []]].
      * exact (Hx H).
      * apply Hnot. left. symmetry. exact E.
    + apply IH; [exact Hl | intros H; apply Hnot; right; exact H].
Qed.

Lemma NoDup_remove_Z (l : list Z) (t : Z) :
  NoDup l -> NoDup (remove Z.eq_dec t l).
Proof.
  intros H. rewrite <- filter_neq_remove. apply NoDup_filter. exact H.
Qed.

Lemma remove_length_NoDup (l : list Z) (t : Z) :
  NoDup l -> In t l -> S (List.length (remove Z.eq_dec t l)) = List.length l.
Proof.
  induction l as [|x l IH]; intros Hnd Hin; [destruct Hin|].
  inversion Hnd as [|? ? Hx Hl]; subst. simpl.
  destruct (Z.eq_dec t x) as [->|N].
  - rewrite notin_remove by exact Hx. reflexivity.
  - simpl. f_equal. apply IH; [exact Hl|].
    destruct Hin as [E | H]; [congruence | exact H].
Qed.

Lemma newTags_NoDup (cur : list Z) (t : Z) :
  NoDup cur -> NoDup (newTags cur t).
Proof.
  intros H. rewrite newTags_spec.
  destruct (in_dec Z.eq_dec t cur);
    [apply NoDup_remove_Z | apply NoDup_snoc]; assumption.
Qed.

Lemma toggles_NoDup (ts : list Z) : forall F,
  NoDup (currentTags F) ->
  NoDup (currentTags (fold_left handleDietaryTagToggle ts F)).
Proof.
  induction ts as [|t ts IH]; intros F H; [exact H|].
  cbn [fold_left]. apply IH. rewrite currentTags_toggle.
  apply newTags_NoDup. exact H.
Qed.

(** X15 - no tag twice.  If the committed tags hold no identifier twice,
    neither do the tags after any sequence of toggles, and each toggle
    changes their number by one: one less when the tag was selected, one
    more when it was not. *)
Theorem X15_tags_stay_distinct (F : MealFilters) (t : Z) (ts : list Z)
  (Hnd : NoDup (currentTags F)) :
  NoDup (currentTags (fold_left handleDietaryTagToggle ts F))
  /\ List.length (currentTags (handleDietaryTagToggle F t))
     = (if tagSelected F t
        then List.length (currentTags F) - 1
        else List.length (currentTags F) + 1)%nat.
Proof.
  split; [apply toggles_NoDup; exact Hnd|].
  rewrite currentTags_toggle, newTags_spec.
  destruct (in_dec Z.eq_dec t (currentTags F)) as [H|H].
  - pose proof (remove_length_NoDup _ _ Hnd H) as L.
    apply tagSelected_In in H. rewrite H. lia.
  - destruct (tagSelected F t) eqn:E.
    + apply tagSelected_In in E. contradiction.
    + rewrite length_app. reflexivity.
Qed.

Lemma X15_tags_stay_distinct_witness :
  NoDup (currentTags
           (fold_left handleDietaryTagToggle [5; 2; 5; 9; 2; 2]%Z emptyFilters))
  /\ List.length (currentTags (handleDietaryTagToggle emptyFilters 5)) = 1%nat.
Proof.
  assert (Hnd : NoDup (currentTags emptyFilters)) by constructor.
  exact (X15_tags_stay_distinct emptyFilters 5 [5; 2; 5; 9; 2; 2]%Z Hnd).
Defined.

End TagList.

(* ================================================================== *)
(** ** Emissions between two renders *)

Section Stale.
Import Js JsFacts.

Lemma run_keeps_filters (es : list Event) : forall st,
  forallb (fun e => negb (is_props e)) es = true ->
  filters (fst (run st es)) = filters st.
Proof.
  induction es as [|e es IH]; intros st Hno; [reflexivity|].
  cbn [forallb] in Hno. apply andb_true_iff in Hno. destruct Hno as [He Hes].
  apply negb_true_iff in He. destruct (step_keeps st e He) as [K _].
  cbn [run]. destruct (step st e) as [st1 o1]. cbn [fst] in K.
  specialize (IH st1 Hes). destruct (run st1 es) as [st2 o2]. cbn [fst] in *.
  congruence.
Qed.

Lemma step_one_control (st : State) (e : Event) :
  timer_current st -> is_props e = false ->
  Forall (one_control (filters st)) (snd (step st e)).
Proof.
  unfold timer_current. intros Ht He.
  destruct e; try discriminate He; cbn [step].
  - destruct (str_eqb v (localSearch st)); constructor.
  - destruct (timer st) as [t|]; [|constructor].
    destruct (remaining t <=? d)%nat; [|constructor]. cbn [snd].
    destruct Ht as (_ & Hf & _). unfold timer_callback. rewrite Hf.
    destruct (negb _); constructor; [|constructor]. left. reflexivity.
  - constructor; [|constructor]. right; left. reflexivity.
  - constructor; [|constructor]. right; right; left. reflexivity.
  - constructor; [|constructor]. right; right; left. reflexivity.
  - constructor; [|constructor]. right; right; right; left. reflexivity.
  - constructor; [|constructor]. right; right; right; right. reflexivity.
Qed.

(** X16 - emissions between two renders.  From a state reached from the
    first render, as long as the parent does not render with new props,
    every state emitted is the empty state or the props of that last
    render with the fields of one control replaced (search, category,
    the sort pair, or the tags): an emission never carries the change of
    an earlier one the parent has not rendered yet. *)
Theorem X16_emissions_from_last_render (F0 : MealFilters)
  (es0 es : list Event)
  (Hno : forallb (fun e => negb (is_props e)) es = true) :
  let st := fst (run (mount F0) es0) in
  let F := filters st in
  Forall (fun out =>
            out = with_search F (search out)
            \/ out = with_category F (category out)
            \/ out = with_sort F (sort_by out) (sort_order out)
            \/ out = with_dietary_tags F (dietary_tags out)
            \/ out = emptyFilters)
    (emissions st es).
Proof.
  intros st F.
  assert (Ht : timer_current st)
    by (apply timer_current_run, timer_current_mount).
  unfold F. clearbody st. clear F. revert st Ht Hno.
  induction es as [|e es IH]; intros st Ht Hno; [constructor|].
  cbn [forallb] in Hno. apply andb_true_iff in Hno. destruct Hno as [He Hes].
  apply negb_true_iff in He.
  rewrite emissions_cons. apply Forall_app. split.
  - exact (step_one_control st e Ht He).
  - destruct (step_keeps st e He) as [K _]. rewrite <- K.
    apply IH; [apply timer_current_step; exact Ht | exact Hes].
Qed.

(** A category pick and a tag toggle before the parent renders: the
    second emission does not carry the category. *)
Lemma X16_emissions_from_last_render_witness :
  emissions (mount emptyFilters) [CategoryPicked (lit "Best for Lunch"); TagToggled 3]
  = [with_category emptyFilters (Some (lit "Best for Lunch"));
     with_dietary_tags emptyFilters (Some [3%Z])]
  /\ Forall (fun out =>
            out = with_search emptyFilters (search out)
            \/ out = with_category emptyFilters (category out)
            \/ out = with_sort emptyFilters (sort_by out) (sort_order out)
            \/ out = with_dietary_tags emptyFilters (dietary_tags out)
            \/ out = emptyFilters)
       (emissions (mount emptyFilters)
          [CategoryPicked (lit "Best for Lunch"); TagToggled 3]).
Proof.
  split; [reflexivity|].
  assert (Hno : forallb (fun e => negb (is_props e))
                  [CategoryPicked (lit "Best for Lunch"); TagToggled 3] = true)
    by reflexivity.
  exact (X16_emissions_from_last_render emptyFilters [] _ Hno).
Defined.

End Stale.

(* ================================================================== *)
(** ** The layout shell *)

Section LayoutShell.

(** X17 - the sidebar flags.  After any sequence of the two callbacks,
    each called from the render that shows the state before it, the
    sidebar is open exactly when it was open before and toggled an even
    number of times, or closed before and toggled an odd number of
    times; the collapsed flag is the argument of the last
    [onCollapsedChange] call, unchanged if there was none; neither
    callback touches the other flag. *)
Theorem X17_layout_flags (s : LayoutState) (es : list LayoutEvent) :
  sidebarOpen (fold_left layout_step es s)
  = xorb (sidebarOpen s) (Nat.odd (toggles es))
  /\ sidebarCollapsed (fold_left layout_step es s)
     = last_collapsed es (sidebarCollapsed s).
Proof.
  revert s. induction es as [|e es IH]; intros s.
  - cbn. rewrite xorb_false_r. split; reflexivity.
  - cbn [fold_left]. destruct (IH (layout_step s e)) as [H1 H2].
    rewrite H1, H2. destruct e; cbn [layout_step toggles last_collapsed
                                      sidebarOpen sidebarCollapsed].
    + split; [|reflexivity]. rewrite Nat.odd_succ, <- Nat.negb_odd.
      destruct (sidebarOpen s), (Nat.odd (toggles es)); reflexivity.
    + split; reflexivity.
Qed.

End LayoutShell.
